(** * House-price prediction service: model loader, predictor and
      confidence heuristic of [app.py], embedded in Rocq.

    Python floats are IEEE-754 binary64 numbers.  They are modelled with the
    executable specification of the Standard Library ([SpecFloat], precision
    53, maximal exponent 1024), so NaN, the infinities, signed zeros and
    rounding behave as they do in CPython.  Dictionaries are finite maps with
    string keys.  The three module-level globals of [app.py] become the
    fields of [AppState]; the file system, joblib, pickle, json and the clock
    are gathered in [World]. *)

From Stdlib Require Import ZArith QArith List Bool Ascii String Lia.
From Stdlib Require Import Floats.SpecFloat.
From Stdlib Require Import Numbers.DecimalString Numbers.DecimalN.
From Stdlib Require Import Sorting.Sorted Sorting.Permutation.
From Stdlib Require Import Reals Lra.
From stdpp Require Import base option gmap strings.

Import ListNotations.
Local Open Scope string_scope.
Local Open Scope Z_scope.

(* ================================================================== *)
(** ** Binary64 arithmetic *)
(* ================================================================== *)

Definition prec : Z := 53.
Definition emax : Z := 1024.

Abbreviation float := spec_float.

Definition fzero : float := S754_zero false.
Definition fnan : float := S754_nan.
Definition finf : float := S754_infinity false.

Definition fadd (x y : float) : float := SFadd prec emax x y.
Definition fsub (x y : float) : float := SFsub prec emax x y.
Definition fdiv (x y : float) : float := SFdiv prec emax x y.
Definition fabs (x : float) : float := SFabs x.

(** Python's [x <= y], [x < y], [x >= y], [x > y] on floats: every
    comparison that involves NaN is [False]. *)
Definition fle (x y : float) : bool := SFleb x y.
Definition flt (x y : float) : bool := SFltb x y.
Definition fge (x y : float) : bool := SFleb y x.
Definition fgt (x y : float) : bool := SFltb y x.

(** An integer used where a float is expected ([z_score <= 1],
    [sum(...) / len(...)]) is converted exactly when it is small. *)
Definition float_of_Z (n : Z) : float := binary_normalize prec emax n 0 false.

(** The decimal literal [n/d] of the source text, read as the nearest
    binary64 number (division of two exactly representable integers is
    correctly rounded). *)
Definition decimal (n d : Z) : float := fdiv (float_of_Z n) (float_of_Z d).

Definition f0_9 : float := Eval vm_compute in decimal 9 10.
Definition f0_7 : float := Eval vm_compute in decimal 7 10.
Definition f0_5 : float := Eval vm_compute in decimal 5 10.
Definition f0_3 : float := Eval vm_compute in decimal 3 10.
Definition f0_8 : float := Eval vm_compute in decimal 8 10.
Definition f0_6 : float := Eval vm_compute in decimal 6 10.
Definition f1 : float := Eval vm_compute in float_of_Z 1.
Definition f2 : float := Eval vm_compute in float_of_Z 2.
Definition f3 : float := Eval vm_compute in float_of_Z 3.

Definition is_nan (x : float) : bool :=
  match x with S754_nan => true | _ => false end.

Definition is_finite (x : float) : bool :=
  match x with S754_zero _ | S754_finite _ _ _ => true | _ => false end.

(** A well-formed binary64 datum: canonical mantissa, exponent in range. *)
Definition valid (x : float) : bool := valid_binary prec emax x.

(* ================================================================== *)
(** ** Python values, exceptions, dictionaries *)
(* ================================================================== *)

(** Result of an operation that may raise; [Raise msg] carries [str(e)]. *)
Inductive PyResult (A : Type) : Type :=
  | Ok (a : A)
  | Raise (msg : string).
Arguments Ok {A} a.
Arguments Raise {A} msg.

(** Per-feature statistics of the metadata file:
    [ranges[feature]['min']], ['max'], ['mean'], ['std']. *)
Record FeatureStats := {
  st_min : float;
  st_max : float;
  st_mean : float;
  st_std : float
}.

(** The values stored in the metadata and model-info dictionaries. *)
Inductive PyVal : Type :=
  | PyNone
  | PyStr (s : string)
  | PyFloat (x : float)
  | PyStrList (l : list string)
  | PyRanges (r : gmap string FeatureStats)
  | PyOther.

(** [d.get(key)]: [None] when the key is absent. *)
Definition dict_get (d : gmap string PyVal) (key : string) : PyVal :=
  default PyNone (d !! key).

(** Truth value of a dictionary: empty dictionaries are falsy. *)
Definition dict_truthy (d : gmap string PyVal) : bool :=
  negb (bool_decide (d = ∅)).

(** [d.update(e)]: the keys of [e] win. *)
Definition dict_update (d e : gmap string PyVal) : gmap string PyVal := e ∪ d.

(** The trained regression artifact: one operation, from the feature row
    [[sqft, beds, baths]] to the first predicted value, or an exception. *)
Record Model := {
  predict : float -> float -> float -> PyResult float
}.

(** The three globals of [app.py]. *)
Record AppState := {
  loaded_model : option Model;
  model_metadata : option (gmap string PyVal);
  model_info : option (gmap string PyVal)
}.

Definition initial_state : AppState :=
  {| loaded_model := None; model_metadata := None; model_info := None |}.

(** What [load_model_from_file] reads from its environment. *)
Record World := {
  joblib_load : string -> PyResult Model;
  pickle_load : string -> PyResult Model;
  path_exists : string -> bool;
  json_load : string -> PyResult (gmap string PyVal);
  now_isoformat : string
}.

(** [s.endswith(suffix)]. *)
Definition endswith (s suffix : string) : bool :=
  let n := String.length s in
  let k := String.length suffix in
  (k <=? n)%nat && String.eqb (substring (n - k) k s) suffix.

(** Truth value of an optional string: [None] and [""] are falsy. *)
Definition str_truthy (s : option string) : bool :=
  match s with
  | None => false
  | Some EmptyString => false
  | Some _ => true
  end.

Definition opt_str (s : option string) : PyVal :=
  match s with Some p => PyStr p | None => PyNone end.

(* ================================================================== *)
(** ** Currency formatting: [f"${prediction:,.2f}"] *)
(* ================================================================== *)

(** [round(m * 2^e * 100)] to the nearest integer, ties to even: the
    number of cents shown by the [.2f] presentation, which rounds the exact
    binary value. *)
Definition cents (m : positive) (e : Z) : Z :=
  match e with
  | Zneg p =>
      let den := 2 ^ Zpos p in
      let num := 100 * Zpos m in
      let q := num / den in
      let r := num mod den in
      match 2 * r ?= den with
      | Lt => q
      | Gt => q + 1
      | Eq => if Z.even q then q else q + 1
      end
  | _ => 100 * Zpos m * 2 ^ e
  end.

Definition digit_char (n : Z) : ascii := ascii_of_nat (48 + Z.to_nat n).

(** Decimal digits of a natural number, most significant first. *)
Definition decimal_digits (n : Z) : list ascii :=
  list_ascii_of_string (NilZero.string_of_uint (N.to_uint (Z.to_N n))).

(** Insert the thousands separator; the digits come least significant
    first. *)
Fixpoint group3 (rev_digits : list ascii) : list ascii :=
  match rev_digits with
  | a :: b :: c :: rest =>
      match rest with
      | [] => [a; b; c]
      | _ => a :: b :: c :: ","%char :: group3 rest
      end
  | _ => rev_digits
  end.

Definition with_commas (digits : list ascii) : list ascii :=
  rev (group3 (rev digits)).

Definition format_fixed2 (s : bool) (c : Z) : string :=
  string_of_list_ascii
    ((if s then ["-"%char] else []) ++ with_commas (decimal_digits (c / 100))
       ++ ["."%char; digit_char (c mod 100 / 10); digit_char (c mod 100 mod 10)]).

(** [format(x, ',.2f')]. *)
Definition format_comma_2f (x : float) : string :=
  match x with
  | S754_nan => "nan"
  | S754_infinity false => "inf"
  | S754_infinity true => "-inf"
  | S754_zero s => format_fixed2 s 0
  | S754_finite s m e => format_fixed2 s (cents m e)
  end.

Definition format_price (prediction : float) : string :=
  "$" ++ format_comma_2f prediction.

(* ================================================================== *)
(** ** Confidence heuristic *)
(* ================================================================== *)

Definition features : list string :=
  ["Square_Footage"; "Bedrooms"; "Total_Bathrooms"].

(** [abs((value - mean_val) / std_val) if std_val > 0 else 0] *)
Definition z_score (value mean_val std_val : float) : float :=
  if fgt std_val fzero then fabs (fdiv (fsub value mean_val) std_val)
  else fzero.

(** The [if z_score <= 1: ... elif ... else] ladder. *)
Definition point_score (z : float) : float :=
  if fle z f1 then f0_9
  else if fle z f2 then f0_7
  else if fle z f3 then f0_5
  else f0_3.

(** The [for feature, value in zip(features, values)] loop: one score is
    appended for every feature that is a key of [ranges]. *)
Fixpoint confidence_scores (ranges : gmap string FeatureStats)
    (fv : list (string * float)) : list float :=
  match fv with
  | [] => []
  | (feature, value) :: rest =>
      match ranges !! feature with
      | Some st =>
          point_score (z_score value (st_mean st) (st_std st))
            :: confidence_scores ranges rest
      | None => confidence_scores ranges rest
      end
  end.

(** [sum(xs)]: left-to-right float addition starting from zero. *)
Definition fsum (xs : list float) : float := fold_left fadd xs fzero.

Definition confidence_label (scores : list float) : string :=
  match scores with
  | [] => "Unknown"
  | _ =>
      let avg_confidence :=
        fdiv (fsum scores) (float_of_Z (Z.of_nat (length scores))) in
      if fge avg_confidence f0_8 then "High"
      else if fge avg_confidence f0_6 then "Medium"
      else "Low"
  end.

(** [calculate_confidence].  When ['feature_ranges'] holds something that
    is not a dictionary of statistics, either the membership test or the
    subscript raises [TypeError], or no feature is found; the [except]
    clause and the final [return] both give ["Unknown"]. *)
Definition calculate_confidence (st : AppState)
    (square_footage bedrooms total_bathrooms : float) : string :=
  match model_metadata st with
  | None => "Unknown"
  | Some md =>
      if negb (dict_truthy md) || negb (bool_decide (is_Some (md !! "feature_ranges")))
      then "Unknown"
      else
        match md !! "feature_ranges" with
        | Some (PyRanges ranges) =>
            let values := [square_footage; bedrooms; total_bathrooms] in
            confidence_label (confidence_scores ranges (zip features values))
        | _ => "Unknown"
        end
  end.

(* ================================================================== *)
(** ** Predictor *)
(* ================================================================== *)

Record Inputs := {
  square_footage : float;
  bedrooms : float;
  total_bathrooms : float
}.

Record PredictionResult := {
  predicted_price : float;
  formatted_price : string;
  confidence : string;
  inputs : Inputs
}.

(** Calls into the loaded model, in the order they are made. *)
Inductive Event : Type :=
  | PredictCall (sqft beds baths : float).

(** [predict_price] returns the pair [(result, error)]; the second
    component of the embedding lists the calls made to the model. *)
Definition predict_price (st : AppState)
    (square_footage bedrooms total_bathrooms : float)
    : (option PredictionResult * option string) * list Event :=
  match loaded_model st with
  | None => ((None, Some "No model loaded. Please load a model first."), [])
  | Some mdl =>
      if fle square_footage fzero || fle bedrooms fzero
         || fle total_bathrooms fzero
      then ((None, Some "All values must be positive numbers."), [])
      else
        let call := PredictCall square_footage bedrooms total_bathrooms in
        match predict mdl square_footage bedrooms total_bathrooms with
        | Raise msg => ((None, Some ("Prediction error: " ++ msg)), [call])
        | Ok prediction =>
            let confidence :=
              calculate_confidence st square_footage bedrooms total_bathrooms in
            ((Some {| predicted_price := prediction;
                      formatted_price := format_price prediction;
                      confidence := confidence;
                      inputs := {| square_footage := square_footage;
                                   bedrooms := bedrooms;
                                   total_bathrooms := total_bathrooms |} |},
              None), [call])
        end
  end.

(* ================================================================== *)
(** ** Model loader *)
(* ================================================================== *)

Definition base_info (w : World) (model_path : string)
    (metadata_path : option string) : gmap string PyVal :=
  {[ "model_path" := PyStr model_path;
     "metadata_path" := opt_str metadata_path;
     "loaded_at" := PyStr (now_isoformat w);
     "model_type" := PyStr "LinearRegression";
     "features" := PyStrList features ]}.

Definition metric_info (md : gmap string PyVal) : gmap string PyVal :=
  {[ "r2_score" := dict_get md "r2_score";
     "rmse" := dict_get md "rmse";
     "mae" := dict_get md "mae";
     "training_samples" := dict_get md "training_samples" ]}.

(** The [if / elif / else] on the file extension. *)
Definition load_artifact (w : World) (model_path : string) : PyResult Model :=
  if endswith model_path ".joblib" then joblib_load w model_path
  else if endswith model_path ".pkl" then pickle_load w model_path
  else Raise "Unsupported model file format. Use .joblib or .pkl".

(** [load_model_from_file]: the globals are assigned one after the other
    inside the [try]; an exception leaves the assignments already made in
    place and is turned into [(False, "Error loading model: ...")]. *)
Definition load_model_from_file (w : World) (model_path : string)
    (metadata_path : option string) (st : AppState)
    : (bool * string) * AppState :=
  match load_artifact w model_path with
  | Raise msg => ((false, "Error loading model: " ++ msg), st)
  | Ok mdl =>
      let st1 := {| loaded_model := Some mdl;
                    model_metadata := None;
                    model_info := model_info st |} in
      let metadata :=
        match metadata_path with
        | Some p =>
            if str_truthy metadata_path && path_exists w p
            then match json_load w p with
                 | Ok md => Ok (Some md)
                 | Raise msg => Raise msg
                 end
            else Ok None
        | None => Ok None
        end in
      match metadata with
      | Raise msg => ((false, "Error loading model: " ++ msg), st1)
      | Ok md =>
          let info := base_info w model_path metadata_path in
          let info :=
            match md with
            | Some d => if dict_truthy d then dict_update info (metric_info d) else info
            | None => info
            end in
          ((true, "Model loaded successfully!"),
           {| loaded_model := Some mdl;
              model_metadata := md;
              model_info := Some info |})
      end
  end.



(* ================================================================== *)
(** ** Consistency of the model-info snapshot *)
(* ================================================================== *)

(** [info] describes [mdl] when the file it names is the one [mdl] was read
    from. *)
Definition describes (w : World) (info : gmap string PyVal) (mdl : Model) : Prop :=
  ∃ p, info !! "model_path" = Some (PyStr p) ∧ load_artifact w p = Ok mdl.

(** The snapshot and the current-model slot agree: both empty, or the
    snapshot describes the model in the slot. *)
Definition consistent (w : World) (st : AppState) : Prop :=
  match loaded_model st, model_info st with
  | None, None => True
  | Some mdl, Some info => describes w info mdl
  | _, _ => False
  end.

(* ================================================================== *)
(** ** Sample models and environments *)
(* ================================================================== *)

(** A model that answers every row with the same price. *)
Definition constant_model (price : float) : Model :=
  {| predict := fun _ _ _ => Ok price |}.

Definition model_a : Model := constant_model (float_of_Z 250000).
Definition model_b : Model := constant_model (decimal 4523017 10).

Definition sample_ranges : gmap string FeatureStats :=
  {[ "Square_Footage" :=
       {| st_min := float_of_Z 500; st_max := float_of_Z 5000;
          st_mean := float_of_Z 2000; st_std := float_of_Z 500 |};
     "Bedrooms" :=
       {| st_min := float_of_Z 1; st_max := float_of_Z 6;
          st_mean := float_of_Z 3; st_std := float_of_Z 1 |} ]}.

Definition sample_metadata : gmap string PyVal :=
  {[ "feature_ranges" := PyRanges sample_ranges;
     "r2_score" := PyFloat (decimal 87 100) ]}.

(** Two model files, one readable metadata file and one that is not valid
    JSON. *)
Definition sample_world : World :=
  {| joblib_load := fun p =>
       if String.eqb p "saved_models/a.joblib" then Ok model_a
       else Raise "[Errno 2] No such file or directory";
     pickle_load := fun p =>
       if String.eqb p "saved_models/b.pkl" then Ok model_b
       else Raise "[Errno 2] No such file or directory";
     path_exists := fun p =>
       String.eqb p "saved_models/a_metadata.json"
       || String.eqb p "saved_models/b_metadata.json";
     json_load := fun p =>
       if String.eqb p "saved_models/a_metadata.json" then Ok sample_metadata
       else Raise "Expecting value: line 1 column 1 (char 0)";
     now_isoformat := "2024-05-01T12:00:00" |}.

Definition state_a : AppState :=
  snd (load_model_from_file sample_world "saved_models/a.joblib" None initial_state).

Definition state_a_meta : AppState :=
  snd (load_model_from_file sample_world "saved_models/a.joblib"
         (Some "saved_models/a_metadata.json") initial_state).

(* ================================================================== *)
(** ** The confidence heuristic as the specification words it *)
(* ================================================================== *)

(** Step 2: the absolute z-score [|value - mean| / std], taken as zero when
    [std] is not positive. *)
Definition spec_z_score (value mean std : float) : float :=
  if fgt std fzero then fdiv (fabs (fsub value mean)) std else fzero.

(** Step 3: the point score of a z-score, as an exact decimal. *)
Definition spec_point_score (z : float) : Q :=
  if fle z f1 then 9 # 10
  else if fle z f2 then 7 # 10
  else if fle z f3 then 5 # 10
  else 3 # 10.

(** Steps 2 and 3 for every feature that has statistics. *)
Definition spec_scores (ranges : gmap string FeatureStats)
    (values : list float) : list Q :=
  omap (fun fv : string * float =>
          match ranges !! fv.1 with
          | Some st => Some (spec_point_score (spec_z_score fv.2 (st_mean st) (st_std st)))
          | None => None
          end)
       (zip features values).

(** Steps 4 and 5: the exact average and its label. *)
Definition spec_label (scores : list Q) : string :=
  match scores with
  | [] => "Unknown"
  | _ =>
      let average :=
        Qdiv (fold_right Qplus (0 # 1) scores)
             (inject_Z (Z.of_nat (length scores))) in
      if Qle_bool (8 # 10) average then "High"
      else if Qle_bool (6 # 10) average then "Medium"
      else "Low"
  end.

Definition spec_confidence (ranges : gmap string FeatureStats)
    (sqft beds baths : float) : string :=
  spec_label (spec_scores ranges [sqft; beds; baths]).

(* ================================================================== *)
(** ** Shape of a currency string *)
(* ================================================================== *)

Definition is_digit (c : ascii) : bool :=
  (48 <=? nat_of_ascii c)%nat && (nat_of_ascii c <=? 57)%nat.

(** One to three digits, followed by any number of groups made of a comma
    and exactly three digits. *)
Inductive grouped : list ascii -> Prop :=
  | grouped_head (h : list ascii) :
      (1 <= length h <= 3)%nat ->
      Forall (fun c => is_digit c = true) h ->
      grouped h
  | grouped_snoc (l : list ascii) (a b c : ascii) :
      grouped l ->
      is_digit a = true -> is_digit b = true -> is_digit c = true ->
      grouped (l ++ [","%char; a; b; c]).

(** ["$"], an optional minus sign, the integer part with thousands
    separators, a decimal point and exactly two decimals. *)
Definition currency_string (s : string) : Prop :=
  ∃ (sign int_part : list ascii) (d1 d2 : ascii),
    list_ascii_of_string s = "$"%char :: sign ++ int_part ++ ["."%char; d1; d2]
    ∧ (sign = [] ∨ sign = ["-"%char])
    ∧ grouped int_part
    ∧ is_digit d1 = true ∧ is_digit d2 = true.

(** A linear regression [intercept + c1*sqft + c2*beds + c3*baths] in
    binary64 arithmetic. *)
Definition fmul (x y : float) : float := SFmul prec emax x y.

Definition linear_model (intercept c1 c2 c3 : float) : Model :=
  {| predict := fun sqft beds baths =>
       Ok (fadd (fadd (fadd (fmul sqft c1) (fmul beds c2)) (fmul baths c3))
                intercept) |}.

(** The literal [1e308]. *)
Definition f1e308 : float := Eval vm_compute in float_of_Z (10 ^ 308).

Definition state_linear : AppState :=
  {| loaded_model :=
       Some (linear_model (float_of_Z 50000) (float_of_Z 150)
               (float_of_Z 10000) (float_of_Z 5000));
     model_metadata := None;
     model_info := None |}.

(* ================================================================== *)
(** ** Discovery of model files: [get_available_models] *)
(* ================================================================== *)

(** Sequencing of operations that may raise. *)
Definition bind {A B : Type} (r : PyResult A) (k : A -> PyResult B) : PyResult B :=
  match r with
  | Ok a => k a
  | Raise msg => Raise msg
  end.

(** What [get_available_models] reads besides [os.path.exists]:
    [os.listdir], [os.path.getsize], and the modification time already
    rendered by [strftime('%Y-%m-%d %H:%M:%S')]. *)
Record FileSystem := {
  listdir : string -> PyResult (list string);
  getsize : string -> PyResult Z;
  getmtime_str : string -> PyResult string
}.

Definition models_dir : string := "saved_models".

Definition starts_with_slash (s : string) : bool :=
  match s with
  | String c _ => Ascii.eqb c "/"
  | EmptyString => false
  end.

(** [os.path.join(a, b)] of [posixpath]. *)
Definition path_join (a b : string) : string :=
  if starts_with_slash b then b
  else if String.eqb a EmptyString || endswith a "/" then a ++ b
  else a ++ "/" ++ b.

Fixpoint contains_dot (s : string) : bool :=
  match s with
  | EmptyString => false
  | String c s' => Ascii.eqb c "." || contains_dot s'
  end.

(** [s.rsplit('.', 1)[0]]: what precedes the last dot, or all of [s] when
    it has no dot. *)
Fixpoint before_last_dot (s : string) : string :=
  match s with
  | EmptyString => EmptyString
  | String c s' =>
      if contains_dot s' then String c (before_last_dot s')
      else if Ascii.eqb c "." then EmptyString
      else String c (before_last_dot s')
  end.

(** [file.endswith(('.joblib', '.pkl'))] *)
Definition is_model_file (file : string) : bool :=
  endswith file ".joblib" || endswith file ".pkl".

(** One dictionary of the list built by [get_available_models]. *)
Record ModelFile := {
  filename : string;
  path : string;
  metadata_path : option string;
  file_size : Z;
  modified : string
}.

(** The body of the [for file in os.listdir(models_dir)] loop. *)
Fixpoint scan_models (w : World) (fs : FileSystem) (files : list string)
    : PyResult (list ModelFile) :=
  match files with
  | [] => Ok []
  | file :: rest =>
      if is_model_file file then
        let model_path := path_join models_dir file in
        let base_name := before_last_dot file in
        let potential_metadata :=
          path_join models_dir (base_name ++ "_metadata.json") in
        let metadata_path :=
          if path_exists w potential_metadata then Some potential_metadata
          else None in
        bind (getsize fs model_path) (fun size =>
        bind (getmtime_str fs model_path) (fun mtime =>
        bind (scan_models w fs rest) (fun models =>
        Ok ({| filename := file;
               path := model_path;
               metadata_path := metadata_path;
               file_size := size;
               modified := mtime |} :: models))))
      else scan_models w fs rest
  end.

(** [sorted(models, key=lambda x: x['modified'], reverse=True)]: a stable
    sort, so entries with equal keys keep their relative order. *)
Fixpoint insert_newest_first (x : ModelFile) (l : list ModelFile) : list ModelFile :=
  match l with
  | [] => [x]
  | y :: l' =>
      if String.leb (modified y) (modified x) then x :: y :: l'
      else y :: insert_newest_first x l'
  end.

Definition sort_newest_first (l : list ModelFile) : list ModelFile :=
  fold_right insert_newest_first [] l.

Definition get_available_models (w : World) (fs : FileSystem)
    : PyResult (list ModelFile) :=
  if path_exists w models_dir then
    bind (listdir fs models_dir) (fun files =>
    bind (scan_models w fs files) (fun models =>
    Ok (sort_newest_first models)))
  else Ok (sort_newest_first []).


(* ================================================================== *)
(** ** JSON and form routes *)
(* ================================================================== *)

(** The body of [POST /api/load_model].  [request.json] raising, or not
    being an object, is [Raise]. *)
Record LoadRequest := {
  req_model_path : option string;
  req_metadata_path : option string
}.

Inductive LoadResponse : Type :=
  | LoadFailure (message : string)
  | LoadSuccess (message : string) (info : option (gmap string PyVal)).

Definition api_load_model (w : World) (body : PyResult LoadRequest)
    (st : AppState) : LoadResponse * AppState :=
  match body with
  | Raise e => (LoadFailure ("Error: " ++ e), st)
  | Ok req =>
      match req_model_path req with
      | Some model_path =>
          if negb (str_truthy (Some model_path))
          then (LoadFailure "Model path is required", st)
          else if negb (path_exists w model_path)
          then (LoadFailure "Model file not found", st)
          else
            let r := load_model_from_file w model_path (req_metadata_path req) st in
            if fst (fst r)
            then (LoadSuccess (snd (fst r)) (model_info (snd r)), snd r)
            else (LoadFailure (snd (fst r)), snd r)
      | None => (LoadFailure "Model path is required", st)
      end
  end.

(** A field of the JSON body of [POST /api/predict], as [data.get(key, 0)]
    sees it. *)
Inductive JsonField : Type :=
  | FieldAbsent
  | FieldNumber (x : float)
  | FieldText (s : string)
  | FieldNull.

(** [float(v)].  The conversion of a string is Python's own parser, taken
    as the parameter [float_of_str]; it raises [ValueError] on text that is
    not a number. *)
Definition to_float (float_of_str : string -> PyResult float) (v : JsonField)
    : PyResult float :=
  match v with
  | FieldAbsent => Ok fzero
  | FieldNumber x => Ok x
  | FieldText s => float_of_str s
  | FieldNull =>
      Raise "float() argument must be a string or a real number, not 'NoneType'"
  end.

Record PredictRequest := {
  req_square_footage : JsonField;
  req_bedrooms : JsonField;
  req_total_bathrooms : JsonField
}.

Inductive PredictResponse : Type :=
  | PredictFailure (message : string)
  | PredictSuccess (result : option PredictionResult).

(** [api_predict]: the three fields are converted in turn; any exception
    is answered with "Error: ..."; [if error:] tests the error returned by
    [predict_price]. *)
Definition api_predict (float_of_str : string -> PyResult float)
    (body : PyResult PredictRequest) (st : AppState)
    : PredictResponse * list Event :=
  match bind body (fun data =>
        bind (to_float float_of_str (req_square_footage data)) (fun sqft =>
        bind (to_float float_of_str (req_bedrooms data)) (fun beds =>
        bind (to_float float_of_str (req_total_bathrooms data)) (fun baths =>
        Ok (sqft, beds, baths))))) with
  | Raise e => (PredictFailure ("Error: " ++ e), [])
  | Ok (sqft, beds, baths) =>
      let r := predict_price st sqft beds baths in
      if str_truthy (snd (fst r))
      then (PredictFailure (default EmptyString (snd (fst r))), snd r)
      else (PredictSuccess (fst (fst r)), snd r)
  end.

(** The form of [POST /predict]: every field is text, or absent. *)
Record PredictForm := {
  form_square_footage : option string;
  form_bedrooms : option string;
  form_total_bathrooms : option string
}.

Definition form_field (v : option string) : JsonField :=
  match v with
  | Some s => FieldText s
  | None => FieldAbsent
  end.

(** What the handler passes to [render_template('predict.html', ...)],
    and the messages it has flashed. *)
Record PredictPage := {
  model_loaded : bool;
  page_model_info : option (gmap string PyVal);
  prediction_result : option PredictionResult;
  flashed : list (string * string)
}.

Definition is_loaded (st : AppState) : bool :=
  match loaded_model st with
  | Some _ => true
  | None => false
  end.

(** [predict()] for a POST request.  With text fields [float] can only
    raise [ValueError], which the first [except] clause handles. *)
Definition predict_post (float_of_str : string -> PyResult float)
    (form : PredictForm) (st : AppState) : PredictPage * list Event :=
  match bind (to_float float_of_str (form_field (form_square_footage form))) (fun sqft =>
        bind (to_float float_of_str (form_field (form_bedrooms form))) (fun beds =>
        bind (to_float float_of_str (form_field (form_total_bathrooms form))) (fun baths =>
        Ok (sqft, beds, baths)))) with
  | Raise _ =>
      ({| model_loaded := is_loaded st;
          page_model_info := model_info st;
          prediction_result := None;
          flashed := [("Please enter valid numbers for all fields.", "error")] |},
       [])
  | Ok (sqft, beds, baths) =>
      let r := predict_price st sqft beds baths in
      if str_truthy (snd (fst r))
      then ({| model_loaded := is_loaded st;
               page_model_info := model_info st;
               prediction_result := None;
               flashed := [("Error: " ++ default EmptyString (snd (fst r)), "error")] |},
            snd r)
      else ({| model_loaded := is_loaded st;
               page_model_info := model_info st;
               prediction_result := fst (fst r);
               flashed := [] |},
            snd r)
  end.

(* ================================================================== *)
(** ** A sample models directory *)
(* ================================================================== *)

Definition sample_files : list string :=
  ["a.joblib"; "notes.txt"; "b.pkl"; "a_metadata.json"; "b_metadata.json"].

Definition sample_world_dir : World :=
  {| joblib_load := joblib_load sample_world;
     pickle_load := pickle_load sample_world;
     path_exists := fun p =>
       String.eqb p "saved_models"
       || existsb (fun f => String.eqb p ("saved_models/" ++ f)) sample_files;
     json_load := json_load sample_world;
     now_isoformat := now_isoformat sample_world |}.

Definition sample_fs : FileSystem :=
  {| listdir := fun d =>
       if String.eqb d "saved_models" then Ok sample_files
       else Raise "[Errno 2] No such file or directory";
     getsize := fun p =>
       if String.eqb p "saved_models/a.joblib" then Ok 1024
       else if String.eqb p "saved_models/b.pkl" then Ok 2048
       else Raise "[Errno 2] No such file or directory";
     getmtime_str := fun p =>
       if String.eqb p "saved_models/a.joblib" then Ok "2024-04-30 09:15:00"
       else if String.eqb p "saved_models/b.pkl" then Ok "2024-05-01 12:00:00"
       else Raise "[Errno 2] No such file or directory" |}.

Definition sample_entry_b : ModelFile :=
  {| filename := "b.pkl";
     path := "saved_models/b.pkl";
     metadata_path := Some "saved_models/b_metadata.json";
     file_size := 2048;
     modified := "2024-05-01 12:00:00" |}.

Definition sample_entry_a : ModelFile :=
  {| filename := "a.joblib";
     path := "saved_models/a.joblib";
     metadata_path := Some "saved_models/a_metadata.json";
     file_size := 1024;
     modified := "2024-04-30 09:15:00" |}.

(* ================================================================== *)
(** ** Auxiliary notions for the confidence heuristic *)
(* ================================================================== *)

(** The z-score computed for [feature], if [ranges] has statistics for
    it. *)
Definition feature_z_score (ranges : gmap string FeatureStats)
    (feature : string) (value : float) : option float :=
  match ranges !! feature with
  | Some st => Some (z_score value (st_mean st) (st_std st))
  | None => None
  end.

(** Position of a float in the order used by the comparisons: the class
    (negative infinity, negative, zero, positive, positive infinity), then
    exponent and mantissa.  NaN has no position. *)
Definition float_key (x : float) : option (Z * Z * Z) :=
  match x with
  | S754_nan => None
  | S754_infinity true => Some (-2, 0, 0)
  | S754_finite true m e => Some (-1, - e, - Z.pos m)
  | S754_zero _ => Some (0, 0, 0)
  | S754_finite false m e => Some (1, e, Z.pos m)
  | S754_infinity false => Some (2, 0, 0)
  end.

Definition key_le (a b : Z * Z * Z) : Prop :=
  a.1.1 < b.1.1
  \/ (a.1.1 = b.1.1
      /\ (a.1.2 < b.1.2 \/ (a.1.2 = b.1.2 /\ a.2 <= b.2))).





(* ================================================================== *)
(** ** Reading a currency string back *)
(* ================================================================== *)

Definition digit_value (c : ascii) : Z := Z.of_nat (nat_of_ascii c) - 48.

(** The number written by a run of digits; thousands separators are
    skipped. *)
Fixpoint read_digits (acc : Z) (l : list ascii) : option Z :=
  match l with
  | [] => Some acc
  | c :: l' =>
      if is_digit c then read_digits (10 * acc + digit_value c) l'
      else if Ascii.eqb c "," then read_digits acc l'
      else None
  end.

(** Sign and number of cents written by ["$[-]d,ddd.dd"]. *)
Definition parse_price (s : string) : option (bool * Z) :=
  match list_ascii_of_string s with
  | "$"%char :: rest =>
      let '(negative, body) :=
        match rest with
        | "-"%char :: b => (true, b)
        | _ => (false, rest)
        end in
      let n := (length body - 3)%nat in
      match skipn n body with
      | ["."%char; d1; d2] =>
          if is_digit d1 && is_digit d2 then
            match read_digits 0 (firstn n body) with
            | Some v => Some (negative, 100 * v + 10 * digit_value d1 + digit_value d2)
            | None => None
            end
          else None
      | _ => None
      end
  | _ => None
  end.

(** The sign bit and the number of cents of a finite price. *)
Definition price_sign (p : float) : bool :=
  match p with
  | S754_zero s | S754_infinity s | S754_finite s _ _ => s
  | S754_nan => false
  end.

Definition price_cents (p : float) : Z :=
  match p with
  | S754_finite _ m e => cents m e
  | _ => 0
  end.

(** The decimal a score stands for. *)
Definition exact_score (s : float) : Q :=
  if SFeqb s f0_9 then 9 # 10
  else if SFeqb s f0_7 then 7 # 10
  else if SFeqb s f0_5 then 5 # 10
  else 3 # 10.

Definition is_score (s : float) : Prop :=
  s = f0_9 \/ s = f0_7 \/ s = f0_5 \/ s = f0_3.

(* ================================================================== *)
(** * Real-number reading of binary64

    The value of a finite float [m * 2^e] as a real number, and what it
    means for a float to be a correct round-to-nearest-even result.  Used
    to relate the comparisons the code makes on z-scores to the order of
    the deviations they are computed from. *)
(* ================================================================== *)

Definition bpow (e : Z) : R := powerRZ 2 e.
Definition F2R (m e : Z) : R := (IZR m * bpow e)%R.

Definition femin : Z := emin prec emax.
Definition fexp64 (e : Z) : Z := fexp prec emax e.

Definition located (k : Z) (y : R) (l : location) : Prop :=
  match l with
  | loc_Exact => y = IZR k
  | loc_Inexact Lt => (IZR k < y < IZR k + / 2)%R
  | loc_Inexact Eq => y = (IZR k + / 2)%R
  | loc_Inexact Gt => (IZR k + / 2 < y < IZR k + 1)%R
  end.

Definition represents (mrs : shr_record) (e : Z) (x : R) : Prop :=
  0 <= shr_m mrs
  ∧ located (shr_m mrs) (x * bpow (- e)) (loc_of_shr_record mrs).

(** Half the distance from a float down to its predecessor: a quarter of
    the unit in the last place at a power of two above the subnormal
    range, half of it elsewhere. *)
Definition low_gap (m : positive) (e : Z) : R :=
  if (Z.pos m =? 2 ^ (prec - 1)) && (femin <? e)
  then (bpow e / 4)%R else (bpow e / 2)%R.

(** [f] is a binary64 number nearest to the non-negative real [x], or
    [+inf] when [x] lies beyond the largest finite number by half a unit
    in the last place. *)
Definition rounds_to (x : R) (f : float) : Prop :=
  match f with
  | S754_zero false => (0 <= x <= bpow femin / 2)%R
  | S754_finite false m e =>
      SpecFloat.bounded prec emax m e = true
      /\ (F2R (Z.pos m) e - low_gap m e <= x <= F2R (Z.pos m) e + bpow e / 2)%R
  | S754_infinity false =>
      ((IZR (2 ^ prec) - / 2) * bpow (emax - prec) <= x)%R
  | _ => False
  end.

(* ================================================================== *)
(** * Properties *)
(* ================================================================== *)

Definition NoModelLoaded : string := "No model loaded. Please load a model first.".
Definition InvalidInput : string := "All values must be positive numbers.".

(** ** Predictor: validation and the missing-model error *)

Lemma fle_nan_l (y : float) : fle fnan y = false.
Proof. reflexivity. Qed.

Lemma predict_price_unloaded (st : AppState) (sqft beds baths : float) :
  loaded_model st = None ->
  predict_price st sqft beds baths = ((None, Some NoModelLoaded), []).
Proof. intros H. unfold predict_price. now rewrite H. Qed.

Lemma predict_price_rejected (st : AppState) (mdl : Model) (sqft beds baths : float) :
  loaded_model st = Some mdl ->
  fle sqft fzero || fle beds fzero || fle baths fzero = true ->
  predict_price st sqft beds baths = ((None, Some InvalidInput), []).
Proof. intros H Hneg. unfold predict_price. now rewrite H, Hneg. Qed.


(** C4. With strictly positive features and no model loaded,
    [predict_price] returns the error "No model loaded. Please load a model
    first.", which is not the validation error, and the model is never
    called. *)
Theorem C4_no_model_loaded (st : AppState) (sqft beds baths : float) :
  fgt sqft fzero = true -> fgt beds fzero = true -> fgt baths fzero = true ->
  loaded_model st = None ->
  predict_price st sqft beds baths
    = ((None, Some "No model loaded. Please load a model first."), [])
  ∧ NoModelLoaded ≠ InvalidInput.
Proof.
  intros _ _ _ Hnone. split.
  - now apply predict_price_unloaded.
  - discriminate.
Qed.

Lemma C4_no_model_loaded_witness :
  predict_price initial_state (float_of_Z 1500) f3 f2
    = ((None, Some "No model loaded. Please load a model first."), [])
  ∧ NoModelLoaded ≠ InvalidInput.
Proof.
  apply (C4_no_model_loaded initial_state (float_of_Z 1500) f3 f2);
    reflexivity.
Defined.

(** C1 (as stated) fails: with no model loaded, a call whose features are
    all zero is answered with the missing-model error, not with the
    validation error. *)
Lemma C1_counterexample :
  ¬ (∀ (st : AppState) (sqft beds baths : float),
       fle sqft fzero || fle beds fzero || fle baths fzero = true ->
       fst (predict_price st sqft beds baths) = (None, Some InvalidInput)).
Proof.
  intros H. specialize (H initial_state fzero fzero fzero eq_refl).
  discriminate H.
Qed.

(** C1 (amended). When one of the three features is [<= 0], the call fails
    without calling the model: with the validation error "All values must
    be positive numbers." if a model is loaded, and with the missing-model
    error if none is. *)
Theorem C1_non_positive_rejected (st : AppState) (sqft beds baths : float) :
  fle sqft fzero || fle beds fzero || fle baths fzero = true ->
  predict_price st sqft beds baths
    = ((None,
        Some (match loaded_model st with
              | Some _ => "All values must be positive numbers."
              | None => "No model loaded. Please load a model first."
              end)), []).
Proof.
  intros Hneg. destruct (loaded_model st) as [mdl|] eqn:Hm.
  - now apply (predict_price_rejected st mdl).
  - now apply predict_price_unloaded.
Qed.

Lemma C1_non_positive_rejected_witness :
  predict_price state_a (float_of_Z 1500) (float_of_Z (-2)) f2
    = ((None, Some "All values must be positive numbers."), []).
Proof.
  apply (C1_non_positive_rejected state_a (float_of_Z 1500) (float_of_Z (-2)) f2).
  reflexivity.
Defined.



(** ** Confidence without metadata *)

Lemma calculate_confidence_no_metadata (st : AppState) (sqft beds baths : float) :
  model_metadata st = None ->
  calculate_confidence st sqft beds baths = "Unknown".
Proof. intros H. unfold calculate_confidence. now rewrite H. Qed.

Lemma calculate_confidence_no_ranges (st : AppState) (md : gmap string PyVal)
    (sqft beds baths : float) :
  model_metadata st = Some md ->
  md !! "feature_ranges" = None ->
  calculate_confidence st sqft beds baths = "Unknown".
Proof.
  intros H Hr. unfold calculate_confidence. rewrite H, Hr.
  now destruct (negb (dict_truthy md) || _).
Qed.

Lemma predict_price_confidence (st : AppState) (sqft beds baths : float)
    (r : PredictionResult) :
  fst (fst (predict_price st sqft beds baths)) = Some r ->
  confidence r = calculate_confidence st sqft beds baths.
Proof.
  unfold predict_price.
  destruct (loaded_model st) as [mdl|]; [|discriminate].
  destruct (fle sqft fzero || fle beds fzero || fle baths fzero); [discriminate|].
  destruct (predict mdl sqft beds baths) as [price|msg]; [|discriminate].
  simpl. now intros [= <-].
Qed.

Lemma load_without_metadata (w : World) (model_path : string)
    (metadata_path : option string) (st : AppState) (mdl : Model) :
  load_artifact w model_path = Ok mdl ->
  match metadata_path with
  | Some p => str_truthy metadata_path && path_exists w p = false
  | None => True
  end ->
  load_model_from_file w model_path metadata_path st
    = ((true, "Model loaded successfully!"),
       {| loaded_model := Some mdl;
          model_metadata := None;
          model_info := Some (base_info w model_path metadata_path) |}).
Proof.
  intros Hl Hm. unfold load_model_from_file. rewrite Hl.
  destruct metadata_path as [p|]; [|reflexivity].
  now rewrite Hm.
Qed.

(** C6. Whenever no metadata is loaded, or the loaded metadata has no
    ['feature_ranges'] entry, every successful prediction carries the
    confidence label "Unknown"; and loading a readable model file without a
    metadata file (no path given, or a path that does not exist) succeeds
    and leaves the metadata slot empty. *)
Theorem C6_unknown_without_metadata :
  (∀ (st : AppState) (sqft beds baths : float) (r : PredictionResult),
     (model_metadata st = None
      ∨ ∃ md, model_metadata st = Some md ∧ md !! "feature_ranges" = None) ->
     fst (fst (predict_price st sqft beds baths)) = Some r ->
     confidence r = "Unknown")
  ∧ (∀ (w : World) (model_path : string) (metadata_path : option string)
       (st : AppState) (mdl : Model),
       load_artifact w model_path = Ok mdl ->
       match metadata_path with
       | Some p => str_truthy metadata_path && path_exists w p = false
       | None => True
       end ->
       fst (load_model_from_file w model_path metadata_path st)
         = (true, "Model loaded successfully!")
       ∧ loaded_model (snd (load_model_from_file w model_path metadata_path st))
         = Some mdl
       ∧ model_metadata (snd (load_model_from_file w model_path metadata_path st))
         = None).
Proof.
  split.
  - intros st sqft beds baths r Hmd Hr.
    rewrite (predict_price_confidence _ _ _ _ _ Hr).
    destruct Hmd as [Hnone | (md & Hsome & Hnr)].
    + now apply calculate_confidence_no_metadata.
    + now apply (calculate_confidence_no_ranges st md).
  - intros w model_path metadata_path st mdl Hl Hm.
    now rewrite (load_without_metadata w model_path metadata_path st mdl Hl Hm).
Qed.

Lemma C6_unknown_without_metadata_witness :
  (∃ r, fst (fst (predict_price state_a (float_of_Z 1500) f3 f2)) = Some r
        ∧ confidence r = "Unknown")
  ∧ fst (load_model_from_file sample_world "saved_models/b.pkl"
           (Some "saved_models/missing.json") state_a)
    = (true, "Model loaded successfully!").
Proof.
  split.
  - eexists. split; [reflexivity|].
    apply (proj1 C6_unknown_without_metadata state_a (float_of_Z 1500) f3 f2);
      [left; reflexivity | reflexivity].
  - apply (proj2 C6_unknown_without_metadata sample_world "saved_models/b.pkl"
             (Some "saved_models/missing.json") state_a model_b);
      reflexivity.
Defined.

(** ** Model loader *)

(** C8. A path that ends neither in [.joblib] nor in [.pkl] makes
    [load_model_from_file] return [False] together with the message of the
    [ValueError] it raised internally, "Unsupported model file format. Use
    .joblib or .pkl" (prefixed by "Error loading model: "); nothing is
    raised to the caller and the globals are left as they were. *)
Theorem C8_unsupported_format (w : World) (model_path : string)
    (metadata_path : option string) (st : AppState) :
  endswith model_path ".joblib" = false ->
  endswith model_path ".pkl" = false ->
  load_model_from_file w model_path metadata_path st
    = ((false,
        "Error loading model: " ++ "Unsupported model file format. Use .joblib or .pkl"),
       st).
Proof.
  intros Hj Hp. unfold load_model_from_file, load_artifact.
  now rewrite Hj, Hp.
Qed.

Lemma C8_unsupported_format_witness :
  load_model_from_file sample_world "saved_models/model.h5" None state_a
    = ((false,
        "Error loading model: Unsupported model file format. Use .joblib or .pkl"),
       state_a).
Proof.
  apply (C8_unsupported_format sample_world "saved_models/model.h5" None state_a);
    reflexivity.
Defined.

Lemma base_info_model_path (w : World) (model_path : string)
    (metadata_path : option string) :
  base_info w model_path metadata_path !! "model_path" = Some (PyStr model_path).
Proof. unfold base_info. now rewrite lookup_insert_eq. Qed.

Lemma metric_info_model_path (md : gmap string PyVal) :
  metric_info md !! "model_path" = None.
Proof.
  unfold metric_info.
  rewrite !lookup_insert_ne by discriminate.
  now rewrite lookup_singleton_ne by discriminate.
Qed.

(** After a successful load the three globals are all set: the model read
    from [model_path], and a fresh snapshot naming [model_path]. *)
Lemma load_success (w : World) (model_path : string)
    (metadata_path : option string) (st st' : AppState) (msg : string) :
  load_model_from_file w model_path metadata_path st = ((true, msg), st') ->
  ∃ mdl info,
    load_artifact w model_path = Ok mdl
    ∧ loaded_model st' = Some mdl
    ∧ model_info st' = Some info
    ∧ info !! "model_path" = Some (PyStr model_path).
Proof.
  unfold load_model_from_file.
  destruct (load_artifact w model_path) as [mdl|e]; [|discriminate].
  set (metadata := match metadata_path with Some _ => _ | None => _ end).
  destruct metadata as [md|e]; [|discriminate].
  intros [= _ <-]. simpl. exists mdl. eexists. repeat split.
  destruct md as [d|]; [destruct (dict_truthy d)|];
    try apply base_info_model_path.
  unfold dict_update. rewrite lookup_union_r by apply metric_info_model_path.
  apply base_info_model_path.
Qed.



(** A successful load leaves a consistent pair of model and snapshot. *)
Lemma load_success_consistent (w : World) (model_path : string)
    (metadata_path : option string) (st st' : AppState) (msg : string) :
  load_model_from_file w model_path metadata_path st = ((true, msg), st') ->
  consistent w st'.
Proof.
  intros H. destruct (load_success _ _ _ _ _ _ H) as (mdl & info & Hl & Hm & Hi & Hp).
  unfold consistent. rewrite Hm, Hi. now exists model_path.
Qed.

(** A load that fails before the model is read changes nothing. *)
Lemma load_artifact_failure_keeps_state (w : World) (model_path : string)
    (metadata_path : option string) (st : AppState) (e : string) :
  load_artifact w model_path = Raise e ->
  snd (load_model_from_file w model_path metadata_path st) = st.
Proof. intros H. unfold load_model_from_file. now rewrite H. Qed.

Lemma model_a_neq_model_b : model_a ≠ model_b.
Proof.
  intros H. apply (f_equal (fun m => predict m fzero fzero fzero)) in H.
  vm_compute in H. discriminate H.
Qed.

(** C2 fails on the code.  Load [a.joblib], then load [b.pkl] together with
    a metadata file that is not valid JSON: the second call reports
    failure, yet the current-model slot already holds the model of [b.pkl]
    while the snapshot still names [a.joblib]. *)
Theorem C2_stale_info_after_failed_load :
  let r1 := load_model_from_file sample_world "saved_models/a.joblib" None
              initial_state in
  let r2 := load_model_from_file sample_world "saved_models/b.pkl"
              (Some "saved_models/b_metadata.json") (snd r1) in
  fst (fst r1) = true
  ∧ consistent sample_world (snd r1)
  ∧ fst (fst r2) = false
  ∧ loaded_model (snd r2) = Some model_b
  ∧ (∃ info, model_info (snd r2) = Some info
             ∧ info !! "model_path" = Some (PyStr "saved_models/a.joblib"))
  ∧ ¬ consistent sample_world (snd r2).
Proof.
  intros r1 r2.
  assert (Hi : ∃ info, model_info (snd r2) = Some info
             ∧ info !! "model_path" = Some (PyStr "saved_models/a.joblib")).
  { eexists. split; [reflexivity|]. apply base_info_model_path. }
  repeat split; try reflexivity; try exact Hi.
  - apply (load_success_consistent sample_world "saved_models/a.joblib" None
             initial_state _ "Model loaded successfully!").
    reflexivity.
  - unfold consistent. destruct Hi as (info & Hinfo & Hp).
    change (loaded_model (snd r2)) with (Some model_b). rewrite Hinfo.
    intros (p & Hp' & Hl). rewrite Hp in Hp'. injection Hp' as <-.
    change (load_artifact sample_world "saved_models/a.joblib")
      with (Ok model_a) in Hl.
    apply model_a_neq_model_b. congruence.
Qed.

(** ** Confidence heuristic against its specification *)

Lemma fabs_binary_round_aux (s : bool) (m e : Z) (l : location) :
  fabs (binary_round_aux prec emax s m e l) = binary_round_aux prec emax false m e l.
Proof.
  unfold binary_round_aux.
  destruct (shr_fexp prec emax m e l) as [mrs e'].
  destruct (shr_fexp prec emax _ e' loc_Exact) as [mrs' e''].
  destruct (shr_m mrs'); try reflexivity.
  now destruct (e'' <=? emax - prec).
Qed.

(** Division commutes with the absolute value of the numerator when the
    divisor is positive. *)
Lemma fabs_fdiv (a b : float) :
  fgt b fzero = true -> fabs (fdiv a b) = fdiv (fabs a) b.
Proof.
  intros Hb.
  destruct b as [sb|sb| |sb mb eb]; try discriminate Hb;
    destruct sb; try discriminate Hb;
    destruct a as [sa|sa| |sa ma ea]; try reflexivity.
  unfold fdiv, SFdiv, fabs, SFabs.
  destruct (SFdiv_core_binary prec emax (Z.pos ma) ea (Z.pos mb) eb) as [[mz ez] lz].
  apply fabs_binary_round_aux.
Qed.

Lemma z_score_spec (value mean std : float) :
  z_score value mean std = spec_z_score value mean std.
Proof.
  unfold z_score, spec_z_score.
  destruct (fgt std fzero) eqn:Hs; [|reflexivity].
  now apply fabs_fdiv.
Qed.

(** The float score and the decimal score of a z-score go together. *)
Lemma point_score_cases (z : float) :
  (point_score z = f0_9 ∧ spec_point_score z = 9 # 10)
  ∨ (point_score z = f0_7 ∧ spec_point_score z = 7 # 10)
  ∨ (point_score z = f0_5 ∧ spec_point_score z = 5 # 10)
  ∨ (point_score z = f0_3 ∧ spec_point_score z = 3 # 10).
Proof.
  unfold point_score, spec_point_score.
  destruct (fle z f1); [tauto|].
  destruct (fle z f2); [tauto|].
  destruct (fle z f3); tauto.
Qed.

(** C3. For metadata that carries per-feature statistics,
    [calculate_confidence] returns what the specified algorithm returns:
    per feature found in the statistics the z-score [|value - mean| / std]
    (zero when [std] is not positive), the point scores 0.9, 0.7, 0.5, 0.3
    by the thresholds 1, 2, 3, their exact average, and the label "High"
    from 0.8, "Medium" from 0.6, "Low" below, "Unknown" when no feature has
    statistics. *)
Theorem C3_confidence_algorithm (st : AppState) (md : gmap string PyVal)
    (ranges : gmap string FeatureStats) (sqft beds baths : float) :
  model_metadata st = Some md ->
  md !! "feature_ranges" = Some (PyRanges ranges) ->
  calculate_confidence st sqft beds baths = spec_confidence ranges sqft beds baths.
Proof.
  intros Hmd Hr. unfold calculate_confidence. rewrite Hmd, Hr.
  assert (Ht : dict_truthy md = true).
  { unfold dict_truthy. apply negb_true_iff, bool_decide_eq_false.
    intros ->. now rewrite lookup_empty in Hr. }
  rewrite Ht. cbn [negb orb].
  rewrite bool_decide_eq_true_2 by (rewrite <- Hr; eauto).
  cbn [negb]. unfold spec_confidence, spec_scores, features.
  cbn [zip zip_with confidence_scores omap list_omap fst snd].
  destruct (ranges !! "Square_Footage") as [s1|];
    destruct (ranges !! "Bedrooms") as [s2|];
    destruct (ranges !! "Total_Bathrooms") as [s3|];
    rewrite ?z_score_spec;
    repeat match goal with
    | |- context [point_score ?z] =>
        destruct (point_score_cases z) as [[-> ->]|[[-> ->]|[[-> ->]|[-> ->]]]]
    end;
    vm_compute; reflexivity.
Qed.

Lemma C3_confidence_algorithm_witness :
  calculate_confidence state_a_meta (float_of_Z 3600) f3 f2
    = spec_confidence sample_ranges (float_of_Z 3600) f3 f2
  ∧ spec_confidence sample_ranges (float_of_Z 3600) f3 f2 = "Medium".
Proof.
  split.
  - apply (C3_confidence_algorithm state_a_meta sample_metadata sample_ranges);
      reflexivity.
  - reflexivity.
Defined.

(** ** Currency formatting *)

Lemma is_digit_digit_char (k : Z) : 0 <= k <= 9 -> is_digit (digit_char k) = true.
Proof.
  intros Hk.
  assert (Hc : k = 0 ∨ k = 1 ∨ k = 2 ∨ k = 3 ∨ k = 4 ∨ k = 5 ∨ k = 6
               ∨ k = 7 ∨ k = 8 ∨ k = 9) by lia.
  repeat (destruct Hc as [-> | Hc]; [reflexivity|]). now subst k.
Qed.

Lemma string_of_uint_digits (u : Decimal.uint) :
  Forall (fun c => is_digit c = true)
         (list_ascii_of_string (NilEmpty.string_of_uint u)).
Proof.
  induction u; simpl; constructor; (reflexivity || assumption).
Qed.

Lemma decimal_digits_digits (n : Z) :
  Forall (fun c => is_digit c = true) (decimal_digits n).
Proof.
  unfold decimal_digits, NilZero.string_of_uint.
  destruct (N.to_uint (Z.to_N n)) eqn:Hu; rewrite <- ?Hu;
    try apply string_of_uint_digits.
  repeat constructor.
Qed.

Lemma decimal_digits_nonempty (n : Z) : decimal_digits n ≠ [].
Proof.
  unfold decimal_digits, NilZero.string_of_uint.
  destruct (N.to_uint (Z.to_N n)); discriminate.
Qed.

Lemma group3_grouped (n : nat) :
  ∀ r : list ascii,
    (length r <= n)%nat -> r ≠ [] ->
    Forall (fun c => is_digit c = true) r ->
    grouped (rev (group3 r)).
Proof.
  induction n as [|n IH]; intros r Hlen Hne Hd.
  - destruct r; [congruence | simpl in Hlen; lia].
  - destruct r as [|a [|b [|c [|d rest]]]]; try congruence.
    + apply grouped_head; [simpl; lia | now apply Forall_rev].
    + apply grouped_head; [simpl; lia | now apply Forall_rev].
    + apply grouped_head; [simpl; lia | now apply Forall_rev].
    + change (group3 (a :: b :: c :: d :: rest))
        with (a :: b :: c :: ","%char :: group3 (d :: rest)).
      change (rev (a :: b :: c :: ","%char :: group3 (d :: rest)))
        with ((((rev (group3 (d :: rest)) ++ [","%char]) ++ [c]) ++ [b]) ++ [a])%list.
      rewrite <- !app_assoc.
      change ([","%char] ++ [c] ++ [b] ++ [a])%list with [","%char; c; b; a].
      inversion Hd as [|? ? Ha Hd1]; subst.
      inversion Hd1 as [|? ? Hb Hd2]; subst.
      inversion Hd2 as [|? ? Hc Hd3]; subst.
      apply grouped_snoc; try assumption.
      apply IH; [simpl in Hlen |- *; lia | discriminate | assumption].
Qed.

Lemma with_commas_grouped (ds : list ascii) :
  ds ≠ [] -> Forall (fun c => is_digit c = true) ds -> grouped (with_commas ds).
Proof.
  intros Hne Hd. unfold with_commas.
  apply (group3_grouped (length (rev ds))); [lia | | now apply Forall_rev].
  intros Hr. apply (f_equal (@rev ascii)) in Hr. rewrite rev_involutive in Hr.
  now apply Hne.
Qed.

Lemma cents_nonneg (m : positive) (e : Z) : 0 <= cents m e.
Proof.
  unfold cents. destruct e as [|p|p]; try lia.
  assert (Hden : 0 < 2 ^ Z.pos p) by (apply Z.pow_pos_nonneg; lia).
  assert (Hq : 0 <= 100 * Z.pos m / 2 ^ Z.pos p) by (apply Z.div_pos; lia).
  destruct (2 * _ ?= _); [destruct (Z.even _)| |]; lia.
Qed.

Lemma list_ascii_dollar (l : list ascii) :
  list_ascii_of_string ("$" ++ string_of_list_ascii l) = "$"%char :: l.
Proof.
  change (list_ascii_of_string (String "$" (string_of_list_ascii l)) = "$"%char :: l).
  cbn [list_ascii_of_string]. now rewrite list_ascii_of_string_of_list_ascii.
Qed.

Lemma format_fixed2_currency (s : bool) (c : Z) :
  0 <= c -> currency_string ("$" ++ format_fixed2 s c).
Proof.
  intros Hc. unfold currency_string, format_fixed2.
  exists (if s then ["-"%char] else []), (with_commas (decimal_digits (c / 100))),
    (digit_char (c mod 100 / 10)), (digit_char (c mod 100 mod 10)).
  assert (H100 : 0 <= c mod 100 < 100) by (apply Z.mod_pos_bound; lia).
  repeat split.
  - apply list_ascii_dollar.
  - destruct s; auto.
  - apply with_commas_grouped; [apply decimal_digits_nonempty | apply decimal_digits_digits].
  - apply is_digit_digit_char.
    assert (0 <= c mod 100 / 10) by (apply Z.div_pos; lia).
    assert (c mod 100 / 10 < 10) by (apply Z.div_lt_upper_bound; lia). lia.
  - apply is_digit_digit_char.
    assert (0 <= c mod 100 mod 10 < 10) by (apply Z.mod_pos_bound; lia). lia.
Qed.

Lemma format_price_currency (p : float) :
  is_finite p = true -> currency_string (format_price p).
Proof.
  intros Hf. destruct p as [s|s| |s m e]; try discriminate Hf.
  - now apply format_fixed2_currency.
  - apply format_fixed2_currency, cents_nonneg.
Qed.

Lemma not_currency_inf : ¬ currency_string "$inf".
Proof.
  intros (sign & ip & d1 & d2 & Heq & _ & _ & _ & _).
  apply (f_equal (@rev ascii)) in Heq. simpl in Heq.
  rewrite !rev_app_distr in Heq. simpl in Heq. discriminate Heq.
Qed.

Lemma predict_price_formatted (st : AppState) (sqft beds baths : float)
    (r : PredictionResult) :
  fst (fst (predict_price st sqft beds baths)) = Some r ->
  formatted_price r = format_price (predicted_price r).
Proof.
  unfold predict_price.
  destruct (loaded_model st) as [mdl|]; [|discriminate].
  destruct (fle sqft fzero || fle beds fzero || fle baths fzero); [discriminate|].
  destruct (predict mdl sqft beds baths) as [price|msg]; [|discriminate].
  simpl. now intros [= <-].
Qed.

(** C9 (as stated) fails: a linear model fed the valid feature
    [sqft = 1e308] overflows to infinity, and the price is then formatted
    as "$inf", which has neither decimals nor separators. *)
Lemma C9_counterexample :
  ∃ r, fst (fst (predict_price state_linear f1e308 f3 f2)) = Some r
       ∧ formatted_price r = "$inf"
       ∧ ¬ currency_string (formatted_price r).
Proof.
  exists {| predicted_price := finf; formatted_price := "$inf";
            confidence := "Unknown";
            inputs := {| square_footage := f1e308; bedrooms := f3;
                         total_bathrooms := f2 |} |}.
  split; [vm_compute; reflexivity|]. split; [reflexivity|].
  exact not_currency_inf.
Qed.

(** C9 (amended). Every finite prediction is formatted as ["$"], an
    optional minus sign, the integer part in comma-separated groups of
    three digits, a decimal point and two decimals; the binary64 number
    nearest to 452301.7 is formatted as "$452,301.70". *)
Theorem C9_currency_format :
  (∀ (st : AppState) (sqft beds baths : float) (r : PredictionResult),
     fst (fst (predict_price st sqft beds baths)) = Some r ->
     is_finite (predicted_price r) = true ->
     formatted_price r = format_price (predicted_price r)
     ∧ currency_string (formatted_price r))
  ∧ format_price (decimal 4523017 10) = "$452,301.70".
Proof.
  split; [|reflexivity].
  intros st sqft beds baths r Hr Hf.
  rewrite (predict_price_formatted _ _ _ _ _ Hr).
  split; [reflexivity | now apply format_price_currency].
Qed.

Lemma C9_currency_format_witness :
  ∃ r, fst (fst (predict_price state_linear (float_of_Z 1500) f3 f2)) = Some r
       ∧ formatted_price r = "$315,000.00"
       ∧ currency_string (formatted_price r).
Proof.
  exists {| predicted_price := float_of_Z 315000; formatted_price := "$315,000.00";
            confidence := "Unknown";
            inputs := {| square_footage := float_of_Z 1500; bedrooms := f3;
                         total_bathrooms := f2 |} |}.
  split; [vm_compute; reflexivity|]. split; [reflexivity|].
  apply (proj1 C9_currency_format state_linear (float_of_Z 1500) f3 f2);
    vm_compute; reflexivity.
Defined.

(** ** Strings: suffixes, joining and ordering *)

Lemma string_app_assoc (a b c : string) : (a ++ b) ++ c = a ++ (b ++ c).
Proof.
  induction a as [|x a IH]; [reflexivity|].
  change (String x ((a ++ b) ++ c) = String x (a ++ (b ++ c))). now rewrite IH.
Qed.

Lemma string_app_length (a b : string) :
  String.length (a ++ b) = (String.length a + String.length b)%nat.
Proof.
  induction a as [|x a IH]; [reflexivity|].
  change (S (String.length (a ++ b)) = S (String.length a + String.length b)).
  now rewrite IH.
Qed.

Lemma substring_all (s : string) : substring 0 (String.length s) s = s.
Proof. induction s as [|x s IH]; [reflexivity|]. simpl. now rewrite IH. Qed.

Lemma substring_skip (pre s : string) (k : nat) :
  substring (String.length pre) k (pre ++ s) = substring 0 k s.
Proof.
  induction pre as [|x pre IH]; [reflexivity|].
  change (substring (S (String.length pre)) k (String x (pre ++ s)) = substring 0 k s).
  simpl. exact IH.
Qed.

Lemma substring_split (s : string) :
  forall n : nat, (n <= String.length s)%nat ->
    s = substring 0 n s ++ substring n (String.length s - n) s.
Proof.
  induction s as [|x s IH]; intros n Hn.
  - destruct n; reflexivity.
  - destruct n as [|n].
    + change (String x s = EmptyString ++ substring 0 (String.length (String x s)) (String x s)).
      now rewrite substring_all.
    + simpl in Hn. cbn [substring String.length Nat.sub].
      change (String x s = String x (substring 0 n s ++ substring n (String.length s - n) s)).
      f_equal. apply IH. lia.
Qed.

(** [endswith] holds exactly of the strings that are a prefix followed by
    the suffix. *)
Lemma endswith_iff (s suffix : string) :
  endswith s suffix = true <-> exists pre, s = pre ++ suffix.
Proof.
  unfold endswith. split.
  - intros H. apply andb_prop in H as [Hlen Heq].
    apply Nat.leb_le in Hlen. apply String.eqb_eq in Heq.
    exists (substring 0 (String.length s - String.length suffix) s).
    pose proof (substring_split s (String.length s - String.length suffix)
                  ltac:(lia)) as Hs.
    replace (String.length s - (String.length s - String.length suffix))%nat
      with (String.length suffix) in Hs by lia.
    now rewrite Heq in Hs.
  - intros [pre ->]. rewrite string_app_length.
    apply andb_true_intro. split; [apply Nat.leb_le; lia|].
    replace (String.length pre + String.length suffix - String.length suffix)%nat
      with (String.length pre) by lia.
    rewrite substring_skip, substring_all. apply String.eqb_refl.
Qed.

Lemma endswith_app (pre s suffix : string) :
  endswith s suffix = true -> endswith (pre ++ s) suffix = true.
Proof.
  rewrite !endswith_iff. intros [p ->]. exists (pre ++ p).
  now rewrite string_app_assoc.
Qed.

Lemma path_join_models_dir (file : string) :
  starts_with_slash file = false ->
  path_join models_dir file = "saved_models/" ++ file.
Proof. intros H. unfold path_join. now rewrite H. Qed.

Lemma is_model_file_path_join (file : string) :
  is_model_file file = true -> is_model_file (path_join models_dir file) = true.
Proof.
  unfold is_model_file, path_join. intros H.
  destruct (starts_with_slash file); [exact H|].
  change (String.eqb models_dir EmptyString || endswith models_dir "/") with false.
  cbv iota. apply orb_true_iff in H. apply orb_true_iff.
  destruct H as [H|H]; [left|right];
    rewrite <- string_app_assoc; now apply endswith_app.
Qed.

Lemma contains_dot_app (s t : string) :
  contains_dot (s ++ "." ++ t) = true.
Proof.
  induction s as [|x s IH]; [reflexivity|].
  change (Ascii.eqb x "." || contains_dot (s ++ "." ++ t) = true).
  rewrite IH. apply orb_true_r.
Qed.

Lemma before_last_dot_no_dot (t : string) :
  contains_dot t = false -> before_last_dot t = t.
Proof.
  induction t as [|x t IH]; [reflexivity|]. cbn [contains_dot before_last_dot].
  intros H. apply orb_false_iff in H as [Hx Ht]. rewrite Ht, Hx.
  now rewrite IH.
Qed.

(** The stem of [stem.ext] is recovered when the extension has no dot. *)
Lemma before_last_dot_app (stem ext : string) :
  contains_dot ext = false -> before_last_dot (stem ++ "." ++ ext) = stem.
Proof.
  intros Hext. induction stem as [|x stem IH].
  - change (before_last_dot (String "." ext) = EmptyString). cbn [before_last_dot].
    now rewrite Hext.
  - change (before_last_dot (String x (stem ++ "." ++ ext)) = String x stem).
    cbn [before_last_dot]. now rewrite contains_dot_app, IH.
Qed.

Lemma ascii_compare_trans (a b c : ascii) (r : comparison) :
  Ascii.compare a b = r -> Ascii.compare b c = r -> Ascii.compare a c = r.
Proof.
  unfold Ascii.compare. intros H1 H2. destruct r.
  - apply N.compare_eq_iff in H1. apply N.compare_eq_iff in H2.
    apply N.compare_eq_iff. congruence.
  - exact (N.lt_trans _ _ _ H1 H2).
  - apply N.compare_gt_iff in H1. apply N.compare_gt_iff in H2.
    apply N.compare_gt_iff. exact (N.lt_trans _ _ _ H2 H1).
Qed.

Lemma ascii_compare_eq_l (a b c : ascii) :
  Ascii.compare a b = Eq -> Ascii.compare a c = Ascii.compare b c.
Proof. intros H. apply Ascii.compare_eq_iff in H. now subst. Qed.

Lemma string_compare_not_gt_trans (a : string) :
  forall b c : string,
    String.compare a b <> Gt -> String.compare b c <> Gt ->
    String.compare a c <> Gt.
Proof.
  induction a as [|x a IH]; intros [|y b] [|z c] H1 H2; cbn in *;
    try congruence.
  destruct (Ascii.compare x y) eqn:Hxy; try congruence.
  - rewrite (ascii_compare_eq_l _ _ _ Hxy).
    destruct (Ascii.compare y z) eqn:Hyz; try congruence. now apply (IH b c).
  - destruct (Ascii.compare y z) eqn:Hyz; try congruence.
    + apply Ascii.compare_eq_iff in Hyz. subst z. rewrite Hxy. congruence.
    + rewrite (ascii_compare_trans _ _ _ _ Hxy Hyz). congruence.
Qed.

Lemma string_leb_trans (a b c : string) :
  String.leb a b = true -> String.leb b c = true -> String.leb a c = true.
Proof.
  unfold String.leb. intros H1 H2.
  pose proof (string_compare_not_gt_trans a b c) as H.
  destruct (String.compare a b); destruct (String.compare b c);
    destruct (String.compare a c); try reflexivity; try discriminate;
    exfalso; apply H; congruence.
Qed.

Lemma string_leb_total_false (a b : string) :
  String.leb a b = false -> String.leb b a = true.
Proof.
  intros H. destruct (String.leb_total a b) as [H'|H']; congruence.
Qed.
(** ** Discovery of model files *)

Lemma bind_Ok {A B : Type} (r : PyResult A) (k : A -> PyResult B) (b : B) :
  bind r k = Ok b -> exists a, r = Ok a /\ k a = Ok b.
Proof. destruct r as [a|e]; [|discriminate]. intros H. now exists a. Qed.

Lemma insert_newest_first_perm (x : ModelFile) (l : list ModelFile) :
  Permutation (insert_newest_first x l) (x :: l).
Proof.
  induction l as [|y l IH]; cbn [insert_newest_first]; [reflexivity|].
  destruct (String.leb (modified y) (modified x)); [reflexivity|].
  rewrite IH. apply perm_swap.
Qed.

Lemma sort_newest_first_perm (l : list ModelFile) :
  Permutation (sort_newest_first l) l.
Proof.
  induction l as [|x l IH]; cbn [sort_newest_first fold_right]; [reflexivity|].
  fold (sort_newest_first l). rewrite insert_newest_first_perm. now constructor.
Qed.

Lemma insert_newest_first_sorted (x : ModelFile) (l : list ModelFile) :
  StronglySorted (fun a b => String.leb (modified b) (modified a) = true) l ->
  StronglySorted (fun a b => String.leb (modified b) (modified a) = true)
    (insert_newest_first x l).
Proof.
  induction 1 as [|y l Hs IH Hy]; cbn [insert_newest_first].
  - repeat constructor.
  - destruct (String.leb (modified y) (modified x)) eqn:Hyx.
    + constructor; [now constructor|]. constructor; [exact Hyx|].
      apply List.Forall_forall. intros z Hz.
      apply (string_leb_trans _ (modified y)); [|exact Hyx].
      now apply (proj1 (List.Forall_forall _ _) Hy).
    + constructor; [exact IH|].
      apply (Permutation_Forall (Permutation_sym (insert_newest_first_perm x l))).
      constructor; [now apply string_leb_total_false | exact Hy].
Qed.

Lemma sort_newest_first_sorted (l : list ModelFile) :
  StronglySorted (fun a b => String.leb (modified b) (modified a) = true)
    (sort_newest_first l).
Proof.
  induction l as [|x l IH]; cbn [sort_newest_first fold_right]; [constructor|].
  now apply insert_newest_first_sorted.
Qed.

Lemma get_available_models_inv (w : World) (fs : FileSystem)
    (models : list ModelFile) :
  get_available_models w fs = Ok models ->
  (path_exists w models_dir = false /\ models = [])
  \/ (exists files scanned,
        path_exists w models_dir = true
        /\ listdir fs models_dir = Ok files
        /\ scan_models w fs files = Ok scanned
        /\ models = sort_newest_first scanned).
Proof.
  unfold get_available_models.
  destruct (path_exists w models_dir); [|intros [= <-]; now left].
  intros H. apply bind_Ok in H as (files & Hl & H).
  apply bind_Ok in H as (scanned & Hs & [= <-]).
  right. now exists files, scanned.
Qed.

Lemma scan_models_filenames (w : World) (fs : FileSystem) (files : list string) :
  forall models,
    scan_models w fs files = Ok models ->
    map filename models = List.filter is_model_file files.
Proof.
  induction files as [|file rest IH]; intros models H; cbn [scan_models] in H.
  - now injection H as <-.
  - cbn [List.filter]. destruct (is_model_file file); [|now apply IH].
    apply bind_Ok in H as (size & _ & H).
    apply bind_Ok in H as (mtime & _ & H).
    apply bind_Ok in H as (ms & Hms & [= <-]).
    cbn. f_equal. now apply IH.
Qed.

(** What the loop records for each model file. *)
Lemma scan_models_entry (w : World) (fs : FileSystem) (files : list string) :
  forall models e,
    scan_models w fs files = Ok models -> In e models ->
    In (filename e) files
    /\ is_model_file (filename e) = true
    /\ path e = path_join models_dir (filename e)
    /\ metadata_path e
       = (let p := path_join models_dir
                     (before_last_dot (filename e) ++ "_metadata.json") in
          if path_exists w p then Some p else None)
    /\ getsize fs (path e) = Ok (file_size e)
    /\ getmtime_str fs (path e) = Ok (modified e).
Proof.
  induction files as [|file rest IH]; intros models e H Hin; cbn [scan_models] in H.
  - injection H as <-. destruct Hin.
  - destruct (is_model_file file) eqn:Hf.
    + apply bind_Ok in H as (size & Hsz & H).
      apply bind_Ok in H as (mtime & Hmt & H).
      apply bind_Ok in H as (ms & Hms & [= <-]).
      destruct Hin as [<- | Hin].
      * cbn. repeat split; auto.
      * destruct (IH ms e Hms Hin) as (H1 & H2). split; [now right | exact H2].
    + destruct (IH models e H Hin) as (H1 & H2). split; [now right | exact H2].
Qed.

Lemma get_available_models_entry (w : World) (fs : FileSystem)
    (models : list ModelFile) (e : ModelFile) :
  get_available_models w fs = Ok models -> In e models ->
  is_model_file (filename e) = true
  /\ path e = path_join models_dir (filename e)
  /\ metadata_path e
     = (let p := path_join models_dir
                   (before_last_dot (filename e) ++ "_metadata.json") in
        if path_exists w p then Some p else None)
  /\ getsize fs (path e) = Ok (file_size e)
  /\ getmtime_str fs (path e) = Ok (modified e).
Proof.
  intros H Hin.
  destruct (get_available_models_inv _ _ _ H)
    as [[_ ->] | (files & scanned & _ & _ & Hs & ->)]; [destruct Hin|].
  apply (Permutation_in _ (sort_newest_first_perm scanned)) in Hin.
  now destruct (scan_models_entry _ _ _ _ _ Hs Hin) as (_ & H2).
Qed.

(** X1. The list returned by [get_available_models] is ordered by
    modification time, newest first: every entry is at least as recent as
    all the entries after it. *)
Theorem X1_available_models_newest_first (w : World) (fs : FileSystem)
    (models : list ModelFile) :
  get_available_models w fs = Ok models ->
  StronglySorted (fun a b => String.leb (modified b) (modified a) = true) models.
Proof.
  intros H.
  destruct (get_available_models_inv _ _ _ H)
    as [[_ ->] | (files & scanned & _ & _ & _ & ->)]; [constructor|].
  apply sort_newest_first_sorted.
Qed.

Lemma X1_available_models_newest_first_witness :
  StronglySorted (fun a b => String.leb (modified b) (modified a) = true)
    [sample_entry_b; sample_entry_a].
Proof.
  apply (X1_available_models_newest_first sample_world_dir sample_fs).
  vm_compute. reflexivity.
Defined.

(** X2. The file names listed by [get_available_models] are exactly the
    directory entries that end in [.joblib] or [.pkl], each as often as
    [os.listdir] returned it; the list is empty when the directory
    [saved_models] does not exist. *)
Theorem X2_available_models_are_the_model_files (w : World) (fs : FileSystem)
    (models : list ModelFile) :
  get_available_models w fs = Ok models ->
  Permutation (map filename models)
    (if path_exists w models_dir
     then match listdir fs models_dir with
          | Ok files => List.filter is_model_file files
          | Raise _ => []
          end
     else []).
Proof.
  intros H.
  destruct (get_available_models_inv _ _ _ H)
    as [[-> ->] | (files & scanned & -> & -> & Hs & ->)]; [reflexivity|].
  rewrite <- (scan_models_filenames _ _ _ _ Hs).
  apply Permutation_map, sort_newest_first_perm.
Qed.

Lemma X2_available_models_are_the_model_files_witness :
  Permutation ["b.pkl"; "a.joblib"] ["a.joblib"; "b.pkl"].
Proof.
  apply (X2_available_models_are_the_model_files sample_world_dir sample_fs
           [sample_entry_b; sample_entry_a]).
  vm_compute. reflexivity.
Defined.

(** X3. Every path listed by [get_available_models] carries a supported
    extension, so [load_model_from_file] hands it to joblib or to pickle
    and never rejects it as an unsupported format. *)
Theorem X3_available_models_are_loadable (w : World) (fs : FileSystem)
    (models : list ModelFile) (e : ModelFile) :
  get_available_models w fs = Ok models -> In e models ->
  load_artifact w (path e)
    = if endswith (path e) ".joblib" then joblib_load w (path e)
      else pickle_load w (path e).
Proof.
  intros H Hin.
  destruct (get_available_models_entry _ _ _ _ H Hin) as (Hf & Hp & _).
  pose proof (is_model_file_path_join _ Hf) as Hm. rewrite <- Hp in Hm.
  unfold load_artifact. unfold is_model_file in Hm.
  destruct (endswith (path e) ".joblib"); [reflexivity|].
  cbn in Hm. now rewrite Hm.
Qed.

Lemma X3_available_models_are_loadable_witness :
  load_artifact sample_world_dir (path sample_entry_b)
    = if endswith (path sample_entry_b) ".joblib"
      then joblib_load sample_world_dir (path sample_entry_b)
      else pickle_load sample_world_dir (path sample_entry_b).
Proof.
  apply (X3_available_models_are_loadable sample_world_dir sample_fs
           [sample_entry_b; sample_entry_a] sample_entry_b).
  - vm_compute. reflexivity.
  - now left.
Defined.

(** X4. Pairing of a model file with its metadata: for a listed file
    [stem.joblib] or [stem.pkl], the recorded path is
    [saved_models/stem.ext], and the recorded metadata path is
    [saved_models/stem_metadata.json] when that file exists and [None]
    otherwise. *)
Theorem X4_metadata_pairing (w : World) (fs : FileSystem)
    (models : list ModelFile) (e : ModelFile) (stem ext : string) :
  get_available_models w fs = Ok models -> In e models ->
  filename e = stem ++ "." ++ ext ->
  contains_dot ext = false ->
  starts_with_slash (filename e) = false ->
  path e = "saved_models/" ++ stem ++ "." ++ ext
  /\ metadata_path e
     = if path_exists w ("saved_models/" ++ stem ++ "_metadata.json")
       then Some ("saved_models/" ++ stem ++ "_metadata.json")
       else None.
Proof.
  intros H Hin Hname Hext Hslash.
  destruct (get_available_models_entry _ _ _ _ H Hin) as (_ & Hp & Hm & _).
  rewrite Hp, Hm, Hname in *. rewrite before_last_dot_app by exact Hext.
  rewrite (path_join_models_dir _ Hslash). split; [reflexivity|].
  assert (Hs : starts_with_slash (stem ++ "_metadata.json") = false).
  { destruct stem; [reflexivity | exact Hslash]. }
  now rewrite (path_join_models_dir _ Hs).
Qed.

Lemma X4_metadata_pairing_witness :
  path sample_entry_a = "saved_models/" ++ "a" ++ "." ++ "joblib"
  /\ metadata_path sample_entry_a
     = if path_exists sample_world_dir ("saved_models/" ++ "a" ++ "_metadata.json")
       then Some ("saved_models/" ++ "a" ++ "_metadata.json")
       else None.
Proof.
  apply (X4_metadata_pairing sample_world_dir sample_fs
           [sample_entry_b; sample_entry_a] sample_entry_a "a" "joblib").
  - vm_compute. reflexivity.
  - right. now left.
  - reflexivity.
  - reflexivity.
  - reflexivity.
Defined.

Lemma scan_models_succeeds_iff (w : World) (fs : FileSystem) (files : list string) :
  (exists models, scan_models w fs files = Ok models)
  <-> (forall f, In f files -> is_model_file f = true ->
         (exists size, getsize fs (path_join models_dir f) = Ok size)
         /\ (exists mtime, getmtime_str fs (path_join models_dir f) = Ok mtime)).
Proof.
  induction files as [|file rest IH]; cbn [scan_models].
  - split; [intros _ f [] | intros _; now exists []].
  - destruct (is_model_file file) eqn:Hf.
    + split.
      * intros (models & H). apply bind_Ok in H as (size & Hsz & H).
        apply bind_Ok in H as (mtime & Hmt & H).
        apply bind_Ok in H as (ms & Hms & _).
        intros f [<- | Hin] Hmf; [split; eauto|].
        apply (proj1 IH); eauto.
      * intros H. destruct (H file (or_introl eq_refl) Hf) as ((size & ->) & (mtime & ->)).
        destruct (proj2 IH) as (ms & ->); [intros f Hin; apply H; now right|].
        cbn. eauto.
    + rewrite IH. split; intros H f.
      * intros [<- | Hin] Hmf; [congruence | now apply H].
      * intros Hin. apply H. now right.
Qed.

(** X5. [get_available_models] has no exception handler: with the
    directory present and listed, it returns a list exactly when the size
    and the modification time of every model file in the listing can be
    read; one unreadable model file makes the whole call raise.  Files
    without a model extension are never inspected. *)
Theorem X5_available_models_succeeds_iff (w : World) (fs : FileSystem)
    (files : list string) :
  path_exists w models_dir = true ->
  listdir fs models_dir = Ok files ->
  (exists models, get_available_models w fs = Ok models)
  <-> (forall f, In f files -> is_model_file f = true ->
         (exists size, getsize fs (path_join models_dir f) = Ok size)
         /\ (exists mtime, getmtime_str fs (path_join models_dir f) = Ok mtime)).
Proof.
  intros Hd Hl. rewrite <- scan_models_succeeds_iff.
  unfold get_available_models. rewrite Hd, Hl. cbn [bind].
  split.
  - intros (models & H). apply bind_Ok in H as (scanned & Hs & _). eauto.
  - intros (scanned & ->). cbn. eauto.
Qed.

Lemma X5_available_models_succeeds_iff_witness :
  (exists models, get_available_models sample_world_dir sample_fs = Ok models)
  <-> (forall f, In f sample_files -> is_model_file f = true ->
         (exists size, getsize sample_fs (path_join models_dir f) = Ok size)
         /\ (exists mtime, getmtime_str sample_fs (path_join models_dir f) = Ok mtime)).
Proof.
  apply (X5_available_models_succeeds_iff sample_world_dir sample_fs sample_files);
    reflexivity.
Defined.



(** ** Predictor: outcomes *)



(** ** JSON and form routes *)

Lemma predict_price_error_truthy (st : AppState) (sqft beds baths : float) :
  str_truthy (snd (fst (predict_price st sqft beds baths)))
  = match fst (fst (predict_price st sqft beds baths)) with
    | Some _ => false
    | None => true
    end.
Proof.
  unfold predict_price.
  destruct (loaded_model st) as [mdl|]; [|reflexivity].
  destruct (fle sqft fzero || fle beds fzero || fle baths fzero); [reflexivity|].
  now destruct (predict mdl sqft beds baths).
Qed.

Lemma predict_price_success_calls (st : AppState) (sqft beds baths : float)
    (r : PredictionResult) :
  fst (fst (predict_price st sqft beds baths)) = Some r ->
  snd (predict_price st sqft beds baths) = [PredictCall sqft beds baths].
Proof.
  unfold predict_price.
  destruct (loaded_model st) as [mdl|]; [|discriminate].
  destruct (fle sqft fzero || fle beds fzero || fle baths fzero); [discriminate|].
  now destruct (predict mdl sqft beds baths).
Qed.

Lemma predict_price_failure_message (st : AppState) (sqft beds baths : float) :
  fle sqft fzero || fle beds fzero || fle baths fzero = true ->
  exists msg, predict_price st sqft beds baths = ((None, Some msg), [])
              /\ str_truthy (Some msg) = true.
Proof.
  intros H. unfold predict_price.
  destruct (loaded_model st); rewrite ?H; eexists; split; reflexivity.
Qed.

(** X9. A successful answer of [POST /api/predict] always carries a
    result (never [null]): the body was readable, the three fields
    converted to floats, and the result is the one [predict_price] computed
    for them with exactly one call to the model. *)
Theorem X9_api_predict_success (float_of_str : string -> PyResult float)
    (body : PyResult PredictRequest) (st : AppState)
    (res : option PredictionResult) (events : list Event) :
  api_predict float_of_str body st = (PredictSuccess res, events) ->
  exists data sqft beds baths r,
    body = Ok data
    /\ to_float float_of_str (req_square_footage data) = Ok sqft
    /\ to_float float_of_str (req_bedrooms data) = Ok beds
    /\ to_float float_of_str (req_total_bathrooms data) = Ok baths
    /\ res = Some r
    /\ fst (fst (predict_price st sqft beds baths)) = Some r
    /\ events = [PredictCall sqft beds baths].
Proof.
  unfold api_predict. destruct body as [data|e]; [|discriminate]. cbn [bind].
  destruct (to_float float_of_str (req_square_footage data)) as [sqft|e] eqn:H1;
    [|discriminate]. cbn [bind].
  destruct (to_float float_of_str (req_bedrooms data)) as [beds|e] eqn:H2;
    [|discriminate]. cbn [bind].
  destruct (to_float float_of_str (req_total_bathrooms data)) as [baths|e] eqn:H3;
    [|discriminate]. cbn [bind].
  rewrite predict_price_error_truthy.
  destruct (fst (fst (predict_price st sqft beds baths))) as [r|] eqn:Hr;
    [|discriminate].
  intros [= <- <-]. exists data, sqft, beds, baths, r.
  repeat split; try reflexivity; try assumption.
  now apply (predict_price_success_calls st sqft beds baths r).
Qed.

Lemma X9_api_predict_success_witness :
  exists data sqft beds baths r,
    Ok {| req_square_footage := FieldNumber (float_of_Z 1500);
          req_bedrooms := FieldNumber f3;
          req_total_bathrooms := FieldNumber f2 |} = Ok data
    /\ to_float (fun _ => Raise "could not convert string to float")
         (req_square_footage data) = Ok sqft
    /\ to_float (fun _ => Raise "could not convert string to float")
         (req_bedrooms data) = Ok beds
    /\ to_float (fun _ => Raise "could not convert string to float")
         (req_total_bathrooms data) = Ok baths
    /\ fst (fst (predict_price state_a (float_of_Z 1500) f3 f2)) = Some r
    /\ fst (fst (predict_price state_a sqft beds baths)) = Some r
    /\ [PredictCall (float_of_Z 1500) f3 f2] = [PredictCall sqft beds baths].
Proof.
  apply (X9_api_predict_success (fun _ => Raise "could not convert string to float")
           (Ok {| req_square_footage := FieldNumber (float_of_Z 1500);
                  req_bedrooms := FieldNumber f3;
                  req_total_bathrooms := FieldNumber f2 |}) state_a).
  vm_compute. reflexivity.
Defined.

(** X10. A request to [POST /api/predict] that leaves out one of the three
    fields never reaches the model: the missing field counts as 0, so the
    answer is a failure (a conversion error of another field, the
    missing-model error, or the validation error), and it is the validation
    error whenever a model is loaded and the other fields convert. *)
Theorem X10_api_predict_missing_field (float_of_str : string -> PyResult float)
    (data : PredictRequest) (st : AppState) :
  req_square_footage data = FieldAbsent
  \/ req_bedrooms data = FieldAbsent
  \/ req_total_bathrooms data = FieldAbsent ->
  (exists msg, api_predict float_of_str (Ok data) st = (PredictFailure msg, []))
  /\ (forall mdl sqft beds baths,
        loaded_model st = Some mdl ->
        to_float float_of_str (req_square_footage data) = Ok sqft ->
        to_float float_of_str (req_bedrooms data) = Ok beds ->
        to_float float_of_str (req_total_bathrooms data) = Ok baths ->
        api_predict float_of_str (Ok data) st
          = (PredictFailure "All values must be positive numbers.", [])).
Proof.
  intros Habs.
  assert (Hzero : forall sqft beds baths,
            to_float float_of_str (req_square_footage data) = Ok sqft ->
            to_float float_of_str (req_bedrooms data) = Ok beds ->
            to_float float_of_str (req_total_bathrooms data) = Ok baths ->
            fle sqft fzero || fle beds fzero || fle baths fzero = true).
  { intros sqft beds baths H1 H2 H3.
    destruct Habs as [Ha | [Ha | Ha]]; rewrite Ha in *; cbn in *.
    - injection H1 as <-. reflexivity.
    - injection H2 as <-. cbn. apply orb_true_iff. left. apply orb_true_r.
    - injection H3 as <-. cbn. apply orb_true_r. }
  split.
  - unfold api_predict. cbn [bind].
    destruct (to_float float_of_str (req_square_footage data)) as [sqft|e] eqn:H1;
      [|cbn; eauto]. cbn [bind].
    destruct (to_float float_of_str (req_bedrooms data)) as [beds|e] eqn:H2;
      [|cbn; eauto]. cbn [bind].
    destruct (to_float float_of_str (req_total_bathrooms data)) as [baths|e] eqn:H3;
      [|cbn; eauto]. cbn [bind].
    destruct (predict_price_failure_message st sqft beds baths
                (Hzero _ _ _ eq_refl eq_refl eq_refl)) as (msg & -> & Ht).
    cbn [fst snd]. rewrite Ht. cbn. eauto.
  - intros mdl sqft beds baths Hm H1 H2 H3. unfold api_predict. cbn [bind].
    rewrite H1, H2, H3. cbn [bind].
    now rewrite (predict_price_rejected st mdl _ _ _ Hm (Hzero _ _ _ H1 H2 H3)).
Qed.

Lemma X10_api_predict_missing_field_witness :
  api_predict (fun _ => Raise "could not convert string to float")
    (Ok {| req_square_footage := FieldNumber (float_of_Z 1500);
           req_bedrooms := FieldAbsent;
           req_total_bathrooms := FieldNumber f2 |}) state_a
  = (PredictFailure "All values must be positive numbers.", []).
Proof.
  apply (proj2 (X10_api_predict_missing_field
                  (fun _ => Raise "could not convert string to float")
                  {| req_square_footage := FieldNumber (float_of_Z 1500);
                     req_bedrooms := FieldAbsent;
                     req_total_bathrooms := FieldNumber f2 |} state_a
                  (or_intror (or_introl eq_refl)))
           model_a (float_of_Z 1500) fzero f2);
    reflexivity.
Defined.

Lemma convert_fields_raise (float_of_str : string -> PyResult float)
    (a b c : JsonField) :
  (exists e, to_float float_of_str a = Raise e)
  \/ (exists e, to_float float_of_str b = Raise e)
  \/ (exists e, to_float float_of_str c = Raise e) ->
  exists e,
    bind (to_float float_of_str a) (fun sqft =>
    bind (to_float float_of_str b) (fun beds =>
    bind (to_float float_of_str c) (fun baths =>
    Ok (sqft, beds, baths)))) = Raise e.
Proof.
  intros H.
  destruct (to_float float_of_str a) as [x|e1]; [|cbn; eauto].
  destruct (to_float float_of_str b) as [y|e2]; [|cbn; eauto].
  destruct (to_float float_of_str c) as [z|e3]; [|cbn; eauto].
  destruct H as [[e H] | [[e H] | [e H]]]; discriminate H.
Qed.

(** X11. A field that cannot be converted to a float stops both prediction
    routes before the model is consulted, whatever the state: the form
    route flashes "Please enter valid numbers for all fields." and shows no
    result, the JSON route answers with a failure whose message starts with
    "Error: ". *)
Theorem X11_unconvertible_field (float_of_str : string -> PyResult float)
    (form : PredictForm) (st : AppState) :
  (exists e, to_float float_of_str (form_field (form_square_footage form)) = Raise e)
  \/ (exists e, to_float float_of_str (form_field (form_bedrooms form)) = Raise e)
  \/ (exists e, to_float float_of_str (form_field (form_total_bathrooms form)) = Raise e) ->
  predict_post float_of_str form st
    = ({| model_loaded := is_loaded st;
          page_model_info := model_info st;
          prediction_result := None;
          flashed := [("Please enter valid numbers for all fields.", "error")] |},
       [])
  /\ exists e,
       api_predict float_of_str
         (Ok {| req_square_footage := form_field (form_square_footage form);
                req_bedrooms := form_field (form_bedrooms form);
                req_total_bathrooms := form_field (form_total_bathrooms form) |})
         st
       = (PredictFailure ("Error: " ++ e), []).
Proof.
  intros H. destruct (convert_fields_raise float_of_str _ _ _ H) as (e & He).
  split.
  - unfold predict_post. now rewrite He.
  - exists e. unfold api_predict. cbn [bind req_square_footage req_bedrooms
      req_total_bathrooms]. now rewrite He.
Qed.

Lemma X11_unconvertible_field_witness :
  predict_post (fun _ => Raise "could not convert string to float")
    {| form_square_footage := Some "1500"; form_bedrooms := Some "three";
       form_total_bathrooms := None |} state_a
  = ({| model_loaded := true;
        page_model_info := model_info state_a;
        prediction_result := None;
        flashed := [("Please enter valid numbers for all fields.", "error")] |},
     []).
Proof.
  apply (proj1 (X11_unconvertible_field
                  (fun _ => Raise "could not convert string to float")
                  {| form_square_footage := Some "1500";
                     form_bedrooms := Some "three";
                     form_total_bathrooms := None |} state_a
                  (or_introl (ex_intro _ "could not convert string to float" eq_refl)))).
Defined.

(** X12. The form route and the JSON route agree: when the three fields
    convert, both make the same calls to the model, and the page shows the
    result of a successful JSON answer with nothing flashed, or flashes
    "Error: " followed by the message of a failed JSON answer. *)
Theorem X12_form_and_api_agree (float_of_str : string -> PyResult float)
    (form : PredictForm) (st : AppState) (sqft beds baths : float) :
  to_float float_of_str (form_field (form_square_footage form)) = Ok sqft ->
  to_float float_of_str (form_field (form_bedrooms form)) = Ok beds ->
  to_float float_of_str (form_field (form_total_bathrooms form)) = Ok baths ->
  let api :=
    api_predict float_of_str
      (Ok {| req_square_footage := form_field (form_square_footage form);
             req_bedrooms := form_field (form_bedrooms form);
             req_total_bathrooms := form_field (form_total_bathrooms form) |})
      st in
  let page := predict_post float_of_str form st in
  snd page = snd api
  /\ model_loaded (fst page) = is_loaded st
  /\ match fst api with
     | PredictSuccess res =>
         prediction_result (fst page) = res /\ flashed (fst page) = []
     | PredictFailure msg =>
         prediction_result (fst page) = None
         /\ flashed (fst page) = [("Error: " ++ msg, "error")]
     end.
Proof.
  intros H1 H2 H3. unfold api_predict, predict_post.
  cbn [bind req_square_footage req_bedrooms req_total_bathrooms].
  rewrite H1, H2, H3. cbn [bind].
  destruct (str_truthy (snd (fst (predict_price st sqft beds baths))));
    cbn; auto.
Qed.

Lemma X12_form_and_api_agree_witness :
  snd (predict_post (fun _ => Ok (float_of_Z 2)) 
         {| form_square_footage := Some "2"; form_bedrooms := Some "2";
            form_total_bathrooms := Some "2" |} state_a)
  = [PredictCall (float_of_Z 2) (float_of_Z 2) (float_of_Z 2)].
Proof.
  apply (proj1 (X12_form_and_api_agree (fun _ => Ok (float_of_Z 2))
                  {| form_square_footage := Some "2"; form_bedrooms := Some "2";
                     form_total_bathrooms := Some "2" |} state_a
                  (float_of_Z 2) (float_of_Z 2) (float_of_Z 2)
                  eq_refl eq_refl eq_refl)).
Defined.

(** X13. Guards of [POST /api/load_model]: a missing or empty model path
    is answered with "Model path is required" and a path that does not
    exist with "Model file not found", both without touching the globals;
    and in general the globals change only if the request names a non-empty
    existing path whose model file could be read, in which case the
    current-model slot holds that model. *)
Theorem X13_api_load_model_guards (w : World) (body : PyResult LoadRequest)
    (st : AppState) :
  (forall req, body = Ok req -> str_truthy (req_model_path req) = false ->
     api_load_model w body st = (LoadFailure "Model path is required", st))
  /\ (forall req p, body = Ok req -> req_model_path req = Some p ->
        str_truthy (Some p) = true -> path_exists w p = false ->
        api_load_model w body st = (LoadFailure "Model file not found", st))
  /\ (snd (api_load_model w body st) = st
      \/ exists req p mdl,
           body = Ok req /\ req_model_path req = Some p
           /\ str_truthy (Some p) = true /\ path_exists w p = true
           /\ load_artifact w p = Ok mdl
           /\ loaded_model (snd (api_load_model w body st)) = Some mdl).
Proof.
  repeat split.
  - intros req -> Hp. unfold api_load_model.
    destruct (req_model_path req) as [p|]; [|reflexivity]. now rewrite Hp.
  - intros req p -> Hp Ht He. unfold api_load_model. now rewrite Hp, Ht, He.
  - unfold api_load_model. destruct body as [req|e]; [|now left].
    destruct (req_model_path req) as [p|] eqn:Hp; [|now left].
    destruct (str_truthy (Some p)) eqn:Ht; [|now left]. cbn [negb].
    destruct (path_exists w p) eqn:He; [|now left]. cbn [negb].
    destruct (load_artifact w p) as [mdl|e] eqn:Hl.
    + right. exists req, p, mdl. repeat split; try assumption.
      unfold load_model_from_file. rewrite Hl.
      destruct (req_metadata_path req) as [q|]; [|reflexivity].
      destruct (str_truthy (Some q) && path_exists w q); [|reflexivity].
      now destruct (json_load w q).
    + left. unfold load_model_from_file. now rewrite Hl.
Qed.

Lemma X13_api_load_model_guards_witness :
  api_load_model sample_world_dir
    (Ok {| req_model_path := Some "saved_models/missing.pkl";
           req_metadata_path := None |}) state_a
  = (LoadFailure "Model file not found", state_a).
Proof.
  apply (proj1 (proj2 (X13_api_load_model_guards sample_world_dir
                         (Ok {| req_model_path := Some "saved_models/missing.pkl";
                                req_metadata_path := None |}) state_a))
           {| req_model_path := Some "saved_models/missing.pkl";
              req_metadata_path := None |} "saved_models/missing.pkl");
    reflexivity.
Defined.



(** ** Model loader: what a load leaves behind *)

(** X15. A successful load replaces the three globals completely: its
    outcome does not depend on the state it started from, so nothing of a
    previously loaded model, its metadata or its snapshot survives. *)
Theorem X15_successful_load_replaces_state (w : World) (model_path : string)
    (metadata_path : option string) (st1 st2 : AppState) :
  fst (fst (load_model_from_file w model_path metadata_path st1)) = true ->
  load_model_from_file w model_path metadata_path st2
    = load_model_from_file w model_path metadata_path st1.
Proof.
  unfold load_model_from_file.
  destruct (load_artifact w model_path) as [mdl|e]; [|discriminate].
  destruct metadata_path as [q|]; [|reflexivity].
  destruct (str_truthy (Some q) && path_exists w q); [|reflexivity].
  destruct (json_load w q); [reflexivity | discriminate].
Qed.

Lemma X15_successful_load_replaces_state_witness :
  load_model_from_file sample_world "saved_models/a.joblib" None state_a_meta
    = load_model_from_file sample_world "saved_models/a.joblib" None initial_state.
Proof.
  apply (X15_successful_load_replaces_state sample_world "saved_models/a.joblib"
           None initial_state state_a_meta).
  reflexivity.
Defined.

(** X16. The model and the metadata always belong together, also after a
    failed load: if the model file cannot be read the globals are
    untouched; otherwise the slot holds the new model and the metadata is
    either empty or the dictionary just read from the metadata file given
    with it, never the metadata of the previous model. *)
Theorem X16_metadata_never_stale (w : World) (model_path : string)
    (metadata_path : option string) (st : AppState) :
  let st' := snd (load_model_from_file w model_path metadata_path st) in
  match load_artifact w model_path with
  | Raise _ => st' = st
  | Ok mdl =>
      loaded_model st' = Some mdl
      /\ (model_metadata st' = None
          \/ exists q md,
               metadata_path = Some q /\ path_exists w q = true
               /\ json_load w q = Ok md /\ model_metadata st' = Some md)
  end.
Proof.
  unfold load_model_from_file.
  destruct (load_artifact w model_path) as [mdl|e]; [|reflexivity].
  destruct metadata_path as [q|]; [|cbn; auto].
  destruct (str_truthy (Some q)) eqn:Ht; [|cbn; auto]. cbn [andb].
  destruct (path_exists w q) eqn:He; [|cbn; auto].
  destruct (json_load w q) as [md|e] eqn:Hj; cbn; [|auto].
  split; [reflexivity|]. right. exists q, md. auto.
Qed.

Lemma metric_info_lookup (md : gmap string PyVal) (k : string) :
  k = "r2_score" \/ k = "rmse" \/ k = "mae" \/ k = "training_samples" ->
  metric_info md !! k = Some (dict_get md k)
  /\ forall w p mp, base_info w p mp !! k = None.
Proof.
  intros [-> | [-> | [-> | ->]]]; split; reflexivity.
Qed.

Lemma base_info_lookups (w : World) (model_path : string)
    (metadata_path : option string) :
  base_info w model_path metadata_path !! "metadata_path"
    = Some (opt_str metadata_path)
  /\ base_info w model_path metadata_path !! "loaded_at"
     = Some (PyStr (now_isoformat w))
  /\ base_info w model_path metadata_path !! "model_type"
     = Some (PyStr "LinearRegression")
  /\ base_info w model_path metadata_path !! "features"
     = Some (PyStrList features).
Proof.
  repeat split; reflexivity.
Qed.

Lemma metric_info_other (md : gmap string PyVal) (k : string) :
  k = "metadata_path" \/ k = "loaded_at" \/ k = "model_type" \/ k = "features" ->
  metric_info md !! k = None.
Proof.
  intros [-> | [-> | [-> | ->]]]; reflexivity.
Qed.

(** X17. Contents of the snapshot after a successful load: it records the
    metadata path exactly as it was passed (also when no such file
    exists), the load time, the fixed model type and the feature names; and
    the four quality metrics are present exactly when a non-empty metadata
    dictionary was read, each holding [metadata.get(key)], that is [None]
    for a metric the metadata lacks. *)
Theorem X17_model_info_contents (w : World) (model_path : string)
    (metadata_path : option string) (st st' : AppState) (msg : string) :
  load_model_from_file w model_path metadata_path st = ((true, msg), st') ->
  exists info,
    model_info st' = Some info
    /\ info !! "metadata_path" = Some (opt_str metadata_path)
    /\ info !! "loaded_at" = Some (PyStr (now_isoformat w))
    /\ info !! "model_type" = Some (PyStr "LinearRegression")
    /\ info !! "features" = Some (PyStrList features)
    /\ forall k,
         k = "r2_score" \/ k = "rmse" \/ k = "mae" \/ k = "training_samples" ->
         info !! k
         = match model_metadata st' with
           | Some md => if dict_truthy md then Some (dict_get md k) else None
           | None => None
           end.
Proof.
  unfold load_model_from_file.
  destruct (load_artifact w model_path) as [mdl|e]; [|discriminate].
  set (metadata := match metadata_path with Some _ => _ | None => _ end).
  destruct metadata as [md|e]; [|discriminate].
  intros [= _ <-]. cbn [model_info model_metadata]. eexists. split; [reflexivity|].
  destruct (base_info_lookups w model_path metadata_path) as (B1 & B2 & B3 & B4).
  assert (Hplain : forall k,
            k = "r2_score" \/ k = "rmse" \/ k = "mae" \/ k = "training_samples" ->
            base_info w model_path metadata_path !! k = None).
  { intros k Hk. apply (proj2 (metric_info_lookup ∅ k Hk)). }
  destruct md as [d|]; [destruct (dict_truthy d)|].
  - unfold dict_update.
    rewrite !lookup_union_r by (apply metric_info_other; auto 6).
    repeat split; auto.
    intros k Hk. apply lookup_union_Some_l.
    exact (proj1 (metric_info_lookup d k Hk)).
  - repeat split; auto.
  - repeat split; auto.
Qed.

Lemma X17_model_info_contents_witness :
  exists info,
    model_info state_a_meta = Some info
    /\ info !! "metadata_path" = Some (opt_str (Some "saved_models/a_metadata.json"))
    /\ info !! "loaded_at" = Some (PyStr (now_isoformat sample_world))
    /\ info !! "model_type" = Some (PyStr "LinearRegression")
    /\ info !! "features" = Some (PyStrList features)
    /\ forall k,
         k = "r2_score" \/ k = "rmse" \/ k = "mae" \/ k = "training_samples" ->
         info !! k
         = match model_metadata state_a_meta with
           | Some md => if dict_truthy md then Some (dict_get md k) else None
           | None => None
           end.
Proof.
  apply (X17_model_info_contents sample_world "saved_models/a.joblib"
           (Some "saved_models/a_metadata.json") initial_state state_a_meta
           "Model loaded successfully!").
  reflexivity.
Defined.

(** ** Confidence heuristic: labels *)

Lemma calculate_confidence_ranges (st : AppState) (md : gmap string PyVal)
    (ranges : gmap string FeatureStats) (sqft beds baths : float) :
  model_metadata st = Some md ->
  md !! "feature_ranges" = Some (PyRanges ranges) ->
  calculate_confidence st sqft beds baths
    = confidence_label
        (confidence_scores ranges (zip features [sqft; beds; baths])).
Proof.
  intros Hmd Hr. unfold calculate_confidence. rewrite Hmd, Hr.
  assert (Ht : dict_truthy md = true).
  { unfold dict_truthy. apply negb_true_iff, bool_decide_eq_false.
    intros ->. now rewrite lookup_empty in Hr. }
  rewrite Ht. cbn [negb orb].
  now rewrite bool_decide_eq_true_2 by (rewrite <- Hr; eauto).
Qed.

Lemma point_score_values (z : float) :
  point_score z = f0_9 \/ point_score z = f0_7
  \/ point_score z = f0_5 \/ point_score z = f0_3.
Proof.
  unfold point_score.
  destruct (fle z f1); [tauto|]. destruct (fle z f2); [tauto|].
  destruct (fle z f3); tauto.
Qed.



Lemma confidence_scores_features (ranges : gmap string FeatureStats)
    (sqft beds baths : float) :
  confidence_scores ranges (zip features [sqft; beds; baths])
  = omap (fun fv : string * float =>
            option_map point_score (feature_z_score ranges fv.1 fv.2))
      [("Square_Footage", sqft); ("Bedrooms", beds); ("Total_Bathrooms", baths)].
Proof.
  unfold features, feature_z_score.
  cbn [zip zip_with confidence_scores omap list_omap fst snd].
  destruct (ranges !! "Square_Footage"), (ranges !! "Bedrooms"),
    (ranges !! "Total_Bathrooms"); reflexivity.
Qed.


(** ** Order of floats *)

Lemma fle_key (x y : float) :
  fle x y = true
  <-> exists a b, float_key x = Some a /\ float_key y = Some b /\ key_le a b.
Proof.
  unfold fle, SFleb, key_le.
  destruct x as [sx|sx| |sx mx ex], y as [sy|sy| |sy my ey];
    try destruct sx; try destruct sy; cbn [SFcompare float_key];
    try (split; [discriminate | intros (a & b & Ha & Hb & _); discriminate]);
    try (split; [intros _; eexists _, _; repeat split; cbn; lia
                | reflexivity]);
    try (split; [discriminate
                | intros (a & b & [= <-] & [= <-] & H); cbn in H; lia]).
  - change (Pos.compare_cont Eq mx my) with (Pos.compare mx my).
    destruct (Z.compare_spec ex ey) as [He|He|He];
      [destruct (Pos.compare_spec mx my) as [Hm|Hm|Hm]| |]; cbn [CompOpp];
      (split; [try discriminate; intros _; eexists _, _; repeat split; cbn; lia
              | try reflexivity;
                intros (a & b & [= <-] & [= <-] & H); cbn in H; lia]).
  - change (Pos.compare_cont Eq mx my) with (Pos.compare mx my).
    destruct (Z.compare_spec ex ey) as [He|He|He];
      [destruct (Pos.compare_spec mx my) as [Hm|Hm|Hm]| |];
      (split; [try discriminate; intros _; eexists _, _; repeat split; cbn; lia
              | try reflexivity;
                intros (a & b & [= <-] & [= <-] & H); cbn in H; lia]).
Qed.

Lemma fle_trans (x y z : float) :
  fle x y = true -> fle y z = true -> fle x z = true.
Proof.
  rewrite !fle_key. intros (a & b & Ha & Hb & Hab) (b' & c & Hb' & Hc & Hbc).
  rewrite Hb in Hb'. injection Hb' as <-. exists a, c. repeat split; auto.
  unfold key_le in *. lia.
Qed.

Lemma fle_total (x y : float) :
  is_nan x = false -> is_nan y = false -> fle x y = true \/ fle y x = true.
Proof.
  intros Hx Hy. rewrite !fle_key.
  destruct (float_key x) as [a|] eqn:Ha; [|destruct x; try destruct s; discriminate].
  destruct (float_key y) as [b|] eqn:Hb; [|destruct y; try destruct s; discriminate].
  assert (key_le a b \/ key_le b a) as [H|H] by (unfold key_le; lia);
    [left | right]; eexists _, _; eauto.
Qed.



Lemma point_score_beyond_two (z : float) :
  fle z f2 = false -> point_score z = f0_5 \/ point_score z = f0_3.
Proof.
  intros H. unfold point_score.
  destruct (fle z f1) eqn:H1.
  - rewrite (fle_trans z f1 f2 H1 eq_refl) in H. discriminate H.
  - rewrite H. destruct (fle z f3); tauto.
Qed.




(** X21. One feature more than two standard deviations from its mean (or
    with a z-score that is NaN) rules out the label "High", however typical
    the other features are. *)
Theorem X21_beyond_two_std_is_not_high (st : AppState) (md : gmap string PyVal)
    (ranges : gmap string FeatureStats) (sqft beds baths : float)
    (f : string) (v z : float) :
  model_metadata st = Some md ->
  md !! "feature_ranges" = Some (PyRanges ranges) ->
  In (f, v) (zip features [sqft; beds; baths]) ->
  feature_z_score ranges f v = Some z ->
  fle z f2 = false ->
  calculate_confidence st sqft beds baths <> "High".
Proof.
  intros Hmd Hr Hin Hz Hfar.
  rewrite (calculate_confidence_ranges _ _ _ _ _ _ Hmd Hr).
  rewrite confidence_scores_features. cbn [omap list_omap fst snd].
  pose proof (point_score_beyond_two z Hfar) as Hp.
  cbn in Hin.
  destruct Hin as [[= <- <-] | [[= <- <-] | [[= <- <-] | []]]]; rewrite Hz;
    cbn [option_map];
    repeat match goal with
    | |- context [feature_z_score ranges ?g ?u] =>
        destruct (feature_z_score ranges g u); cbn [option_map]
    end;
    repeat match goal with
    | |- context [point_score ?y] =>
        lazymatch y with
        | z => fail
        | _ => destruct (point_score_values y) as [-> | [-> | [-> | ->]]]
        end
    end;
    destruct Hp as [-> | ->]; vm_compute; discriminate.
Qed.

Lemma X21_beyond_two_std_is_not_high_witness :
  calculate_confidence state_a_meta (float_of_Z 3600) f3 f2 <> "High".
Proof.
  apply (X21_beyond_two_std_is_not_high state_a_meta sample_metadata sample_ranges
           (float_of_Z 3600) f3 f2 "Square_Footage" (float_of_Z 3600)
           (decimal 32 10));
    try reflexivity.
  cbn. auto.
Defined.





(** X24. The score ladder is monotone in the z-score: a z-score that is
    not larger never gets a smaller score. *)
Theorem X24_point_score_antitone (z1 z2 : float) :
  fle z1 z2 = true -> fle (point_score z2) (point_score z1) = true.
Proof.
  intros H. unfold point_score.
  destruct (fle z2 f1) eqn:H1.
  - now rewrite (fle_trans _ _ _ H H1).
  - destruct (fle z2 f2) eqn:H2.
    + rewrite (fle_trans _ _ _ H H2). now destruct (fle z1 f1).
    + destruct (fle z2 f3) eqn:H3.
      * rewrite (fle_trans _ _ _ H H3).
        destruct (fle z1 f1); [reflexivity|]. now destruct (fle z1 f2).
      * destruct (fle z1 f1); [reflexivity|].
        destruct (fle z1 f2); [reflexivity|]. now destruct (fle z1 f3).
Qed.

Lemma X24_point_score_antitone_witness :
  fle (point_score (decimal 32 10)) (point_score (decimal 5 10)) = true.
Proof.
  apply (X24_point_score_antitone (decimal 5 10) (decimal 32 10)).
  reflexivity.
Defined.


(** ** Currency formatting: value *)

(** X25. The number of cents shown is the integer nearest to one hundred
    times the exact binary value [m * 2^e] of the price, and a value
    exactly half-way between two cents goes to the even one. *)
Theorem X25_cents_is_nearest (m : positive) (e : Z) :
  let scale := 2 ^ Z.max (- e) 0 in
  let exact := 100 * Z.pos m * 2 ^ Z.max e 0 in
  2 * Z.abs (exact - cents m e * scale) <= scale
  /\ (2 * Z.abs (exact - cents m e * scale) = scale -> Z.even (cents m e) = true).
Proof.
  unfold cents. destruct e as [|p|p].
  - change (Z.max (- 0) 0) with 0. change (Z.max 0 0) with 0.
    cbn zeta. rewrite Z.pow_0_r. lia.
  - replace (Z.max (- Z.pos p) 0) with 0 by lia.
    replace (Z.max (Z.pos p) 0) with (Z.pos p) by lia.
    cbn zeta. rewrite Z.pow_0_r. lia.
  - replace (Z.max (- Z.neg p) 0) with (Z.pos p) by lia.
    replace (Z.max (Z.neg p) 0) with 0 by lia.
    cbn zeta. rewrite Z.pow_0_r, Z.mul_1_r.
    set (den := 2 ^ Z.pos p). set (num := 100 * Z.pos m).
    assert (Hden : 0 < den) by (apply Z.pow_pos_nonneg; lia).
    pose proof (Z.div_mod num den ltac:(lia)) as Hdm.
    pose proof (Z.mod_pos_bound num den Hden) as Hr.
    destruct (Z.compare_spec (2 * (num mod den)) den) as [Heq|Hlt|Hgt].
    + destruct (Z.even (num / den)) eqn:Hev.
      * split; [nia | intros _; exact Hev].
      * split; [nia|]. intros _. rewrite Z.even_add, Hev. reflexivity.
    + split; [nia | nia].
    + split; [nia | nia].
Qed.

Lemma digit_value_digit_char (k : Z) :
  0 <= k <= 9 -> digit_value (digit_char k) = k.
Proof.
  intros Hk.
  assert (Hc : k = 0 \/ k = 1 \/ k = 2 \/ k = 3 \/ k = 4 \/ k = 5 \/ k = 6
               \/ k = 7 \/ k = 8 \/ k = 9) by lia.
  repeat (destruct Hc as [-> | Hc]; [reflexivity|]). now subst k.
Qed.

Lemma read_digits_uint_acc (u : Decimal.uint) :
  forall (acc : positive) (rest : list ascii),
    read_digits (Z.pos acc)
      (list_ascii_of_string (NilEmpty.string_of_uint u) ++ rest)
    = read_digits (Z.pos (Pos.of_uint_acc u acc)) rest.
Proof.
  induction u; intros acc rest; cbn [NilEmpty.string_of_uint
    list_ascii_of_string Pos.of_uint_acc app]; try reflexivity;
    cbn [read_digits]; change (is_digit _) with true; cbv iota;
    rewrite <- IHu; f_equal;
    match goal with
    | |- context [digit_value ?c] =>
        let v := eval vm_compute in (digit_value c) in
        change (digit_value c) with v
    end; lia.
Qed.

Lemma read_digits_uint (u : Decimal.uint) (rest : list ascii) :
  read_digits 0 (list_ascii_of_string (NilEmpty.string_of_uint u) ++ rest)
  = read_digits (Z.of_N (Pos.of_uint u)) rest.
Proof.
  induction u; cbn [NilEmpty.string_of_uint list_ascii_of_string Pos.of_uint app];
    try reflexivity; cbn [read_digits]; change (is_digit _) with true; cbv iota;
    match goal with
    | |- context [digit_value ?c] =>
        let v := eval vm_compute in (digit_value c) in
        change (digit_value c) with v
    end;
    match goal with
    | |- read_digits ?a _ = _ =>
        let v := eval vm_compute in a in change a with v
    end;
    [exact IHu | exact (read_digits_uint_acc u _ rest) ..].
Qed.

Lemma read_digits_decimal (n : Z) (rest : list ascii) :
  0 <= n ->
  read_digits 0 (decimal_digits n ++ rest) = read_digits n rest.
Proof.
  intros Hn. unfold decimal_digits, NilZero.string_of_uint.
  rewrite <- (Z2N.id n Hn) at 2.
  rewrite <- (DecimalN.Unsigned.of_to (Z.to_N n)) at 2. unfold N.of_uint.
  destruct (N.to_uint (Z.to_N n)) eqn:Hu; rewrite <- ?Hu;
    try apply read_digits_uint.
  rewrite Hu. reflexivity.
Qed.

Lemma read_digits_app_comma (x : list ascii) :
  forall (acc : Z) (y : list ascii),
    read_digits acc (x ++ ","%char :: y) = read_digits acc (x ++ y).
Proof.
  induction x as [|c x IH]; intros acc y; [reflexivity|].
  cbn [app read_digits]. destruct (is_digit c); [apply IH|].
  destruct (Ascii.eqb c ","); [apply IH | reflexivity].
Qed.

Lemma read_digits_group3 (n : nat) :
  forall (r rest : list ascii) (acc : Z),
    (length r <= n)%nat ->
    read_digits acc (rev (group3 r) ++ rest) = read_digits acc (rev r ++ rest).
Proof.
  induction n as [|n IH]; intros r rest acc Hlen.
  - destruct r; [reflexivity | simpl in Hlen; lia].
  - destruct r as [|a [|b [|c [|d r']]]]; try reflexivity.
    change (group3 (a :: b :: c :: d :: r'))
      with (a :: b :: c :: ","%char :: group3 (d :: r')).
    change (rev (a :: b :: c :: ","%char :: group3 (d :: r')))
      with ((((rev (group3 (d :: r')) ++ [","%char]) ++ [c]) ++ [b]) ++ [a])%list.
    change (rev (a :: b :: c :: d :: r'))
      with (((rev (d :: r') ++ [c]) ++ [b]) ++ [a])%list.
    rewrite <- !app_assoc. rewrite IH by (simpl in Hlen |- *; lia).
    change ([","%char] ++ [c] ++ [b] ++ [a] ++ rest)%list
      with (","%char :: ([c] ++ [b] ++ [a] ++ rest))%list.
    apply read_digits_app_comma.
Qed.

Lemma read_digits_with_commas (ds rest : list ascii) (acc : Z) :
  read_digits acc (with_commas ds ++ rest) = read_digits acc (ds ++ rest).
Proof.
  unfold with_commas.
  rewrite (read_digits_group3 (length (rev ds))) by lia.
  now rewrite rev_involutive.
Qed.

Lemma grouped_starts_with_digit (l : list ascii) :
  grouped l -> exists c l', l = c :: l' /\ is_digit c = true.
Proof.
  induction 1 as [h Hlen Hd | l a b c _ (x & l' & -> & Hx) _ _ _].
  - destruct h as [|x h]; [simpl in Hlen; lia|].
    inversion Hd; subst. now exists x, h.
  - now exists x, (l' ++ [","%char; a; b; c])%list.
Qed.

Lemma split_minus_digit (c : ascii) (l : list ascii) :
  is_digit c = true ->
  match c :: l with
  | "-"%char :: b => (true, b)
  | _ => (false, c :: l)
  end = (false, c :: l).
Proof.
  intros H. destruct c as [[] [] [] [] [] [] [] []];
    try discriminate H; reflexivity.
Qed.

Lemma skipn_length_app {A : Type} (l t : list A) :
  skipn (length l) (l ++ t) = t.
Proof. induction l as [|x l IH]; [reflexivity | exact IH]. Qed.

Lemma firstn_length_app {A : Type} (l t : list A) :
  firstn (length l) (l ++ t) = l.
Proof. induction l as [|x l IH]; [reflexivity | cbn; now rewrite IH]. Qed.

Lemma length_app_3 {A : Type} (l : list A) (a b c : A) :
  (length (l ++ [a; b; c]) - 3)%nat = length l.
Proof. rewrite List.length_app. cbn [length]. lia. Qed.

Lemma parse_format_fixed2 (s : bool) (c : Z) :
  0 <= c -> parse_price ("$" ++ format_fixed2 s c) = Some (s, c).
Proof.
  intros Hc. unfold parse_price, format_fixed2. rewrite list_ascii_dollar.
  set (W := with_commas (decimal_digits (c / 100))).
  set (d1 := digit_char (c mod 100 / 10)).
  set (d2 := digit_char (c mod 100 mod 10)).
  assert (H100 : 0 <= c mod 100 < 100) by (apply Z.mod_pos_bound; lia).
  assert (Hk1 : 0 <= c mod 100 / 10 <= 9).
  { assert (0 <= c mod 100 / 10) by (apply Z.div_pos; lia).
    assert (c mod 100 / 10 < 10) by (apply Z.div_lt_upper_bound; lia). lia. }
  assert (Hk2 : 0 <= c mod 100 mod 10 <= 9).
  { assert (0 <= c mod 100 mod 10 < 10) by (apply Z.mod_pos_bound; lia). lia. }
  assert (Hq : 0 <= c / 100) by (apply Z.div_pos; lia).
  assert (Hbody :
    let n := (length (W ++ ["."%char; d1; d2]) - 3)%nat in
    match skipn n (W ++ ["."%char; d1; d2]) with
    | ["."%char; e1; e2] =>
        if is_digit e1 && is_digit e2 then
          match read_digits 0 (firstn n (W ++ ["."%char; d1; d2])) with
          | Some v => Some (s, 100 * v + 10 * digit_value e1 + digit_value e2)
          | None => None
          end
        else None
    | _ => None
    end = Some (s, c)).
  { cbn zeta. rewrite length_app_3, skipn_length_app, firstn_length_app.
    unfold d1, d2. rewrite !is_digit_digit_char by assumption. cbn [andb].
    rewrite <- (app_nil_r W). unfold W.
    rewrite read_digits_with_commas, read_digits_decimal by assumption.
    cbn [read_digits]. rewrite !digit_value_digit_char by assumption.
    f_equal. f_equal.
    pose proof (Z.div_mod c 100 ltac:(lia)).
    pose proof (Z.div_mod (c mod 100) 10 ltac:(lia)). lia. }
  destruct s.
  - exact Hbody.
  - cbn [app].
    destruct (grouped_starts_with_digit W) as (x & W' & HW & Hx).
    { apply with_commas_grouped;
        [apply decimal_digits_nonempty | apply decimal_digits_digits]. }
    rewrite HW in *. cbn [app]. rewrite (split_minus_digit x _ Hx).
    exact Hbody.
Qed.

(** X26. Round trip of the currency rendering: reading back the digits of
    the formatted price of a finite prediction (separators skipped) gives
    its sign and exactly the number of cents it was rounded to. *)
Theorem X26_format_then_parse (p : float) :
  is_finite p = true ->
  parse_price (format_price p) = Some (price_sign p, price_cents p).
Proof.
  intros Hf. destruct p as [s|s| |s m e]; try discriminate Hf.
  - now apply parse_format_fixed2.
  - apply parse_format_fixed2, cents_nonneg.
Qed.

Lemma X26_format_then_parse_witness :
  parse_price (format_price (decimal (-4523017) 10)) = Some (true, 45230170).
Proof.
  apply (X26_format_then_parse (decimal (-4523017) 10)).
  reflexivity.
Defined.

(** ** Averaging in binary64 against exact averaging *)

(** X27. Rounding never moves an average across a threshold: for up to
    three scores taken from 0.9, 0.7, 0.5 and 0.3, the label computed in
    binary64 (sum from the left, division by the count, comparisons with
    0.8 and 0.6) is the label of the exact decimal average; for instance
    [(0.9 + 0.7) / 2 >= 0.8] holds in binary64 as it does exactly. *)
Theorem X27_float_average_is_exact (scores : list float) :
  (length scores <= 3)%nat ->
  Forall is_score scores ->
  confidence_label scores = spec_label (map exact_score scores).
Proof.
  intros Hlen Hall.
  destruct scores as [|a [|b [|c [|d rest]]]]; [| | | |cbn in Hlen; lia];
    repeat match goal with
    | H : Forall is_score (_ :: _) |- _ =>
        let Hx := fresh in
        let Hr := fresh in
        apply List.Forall_cons_iff in H as [Hx Hr];
        destruct Hx as [-> | [-> | [-> | ->]]]
    end;
    vm_compute; reflexivity.
Qed.

Lemma X27_float_average_is_exact_witness :
  confidence_label [f0_9; f0_7] = spec_label (map exact_score [f0_9; f0_7])
  /\ confidence_label [f0_9; f0_7] = "High".
Proof.
  split; [|reflexivity].
  apply (X27_float_average_is_exact [f0_9; f0_7]); [cbn; lia|].
  apply List.Forall_cons; [left; reflexivity|].
  apply List.Forall_cons; [right; left; reflexivity|].
  apply List.Forall_nil.
Defined.

(** ** Currency formatting: every float *)

Lemma not_currency_short (a b c : ascii) :
  a <> "."%char ->
  ~ currency_string (String "$" (String a (String b (String c EmptyString)))).
Proof.
  intros Hb (sign & ip & d1 & d2 & Heq & _ & _ & _ & _).
  apply (f_equal (@rev ascii)) in Heq. cbn [list_ascii_of_string rev app] in Heq.
  rewrite !rev_app_distr in Heq. cbn [rev app] in Heq.
  injection Heq as _ _ Hdot _. now apply Hb.
Qed.

Lemma not_currency_minus_inf : ~ currency_string "$-inf".
Proof.
  intros (sign & ip & d1 & d2 & Heq & _ & _ & _ & _).
  apply (f_equal (@rev ascii)) in Heq. cbn [list_ascii_of_string rev app] in Heq.
  rewrite !rev_app_distr in Heq. cbn [rev app] in Heq. discriminate Heq.
Qed.

(** X28. Rendering of the price: a finite prediction is always rendered as
    ["$"], an optional minus sign, comma-separated groups of three digits
    and two decimals; a prediction that is NaN or infinite is rendered as
    "$nan", "$inf" or "$-inf", which is not of that shape. *)
Theorem X28_format_price_shape (p : float) :
  if is_finite p then currency_string (format_price p)
  else (format_price p = "$nan" \/ format_price p = "$inf"
        \/ format_price p = "$-inf")
       /\ ~ currency_string (format_price p).
Proof.
  destruct p as [s|s| |s m e]; cbn [is_finite].
  - now apply format_fixed2_currency.
  - destruct s; (split; [cbn; auto|]).
    + exact not_currency_minus_inf.
    + apply not_currency_short. discriminate.
  - split; [cbn; auto|]. apply not_currency_short. discriminate.
  - apply format_fixed2_currency, cents_nonneg.
Qed.


(** ** Correct rounding of binary64 division, and the order of z-scores *)

Lemma bpow_gt_0 (e : Z) : (0 < bpow e)%R.
Proof. apply powerRZ_lt. lra. Qed.

Lemma bpow_plus (a b : Z) : bpow (a + b) = (bpow a * bpow b)%R.
Proof. apply powerRZ_add. lra. Qed.

Lemma bpow_0 : bpow 0 = 1%R.
Proof. reflexivity. Qed.

Lemma bpow_1 : bpow 1 = 2%R.
Proof. unfold bpow. simpl. lra. Qed.

Lemma bpow_m1 : bpow (-1) = (/ 2)%R.
Proof. unfold bpow. simpl. f_equal. lra. Qed.

Lemma bpow_opp (e : Z) : bpow (- e) = (/ bpow e)%R.
Proof. apply powerRZ_neg'. Qed.

Lemma bpow_succ (e : Z) : bpow (e + 1) = (2 * bpow e)%R.
Proof. rewrite bpow_plus, bpow_1. lra. Qed.

Lemma bpow_pred (e : Z) : bpow (e - 1) = (bpow e / 2)%R.
Proof.
  replace (e - 1) with (e + -1) by lia. rewrite bpow_plus, bpow_m1. lra.
Qed.

Lemma bpow_ge_1 (n : Z) : 0 <= n -> (1 <= bpow n)%R.
Proof.
  intros Hn. pattern n. apply natlike_ind; [rewrite bpow_0; lra | | exact Hn].
  intros k Hk IH. unfold Z.succ. rewrite bpow_succ. lra.
Qed.

Lemma bpow_le (a b : Z) : a <= b -> (bpow a <= bpow b)%R.
Proof.
  intros H. replace b with (a + (b - a)) by lia. rewrite bpow_plus.
  pose proof (bpow_gt_0 a). pose proof (bpow_ge_1 (b - a) ltac:(lia)). nra.
Qed.

Lemma bpow_lt (a b : Z) : a < b -> (bpow a < bpow b)%R.
Proof.
  intros H. pose proof (bpow_le (a + 1) b ltac:(lia)) as Hle.
  rewrite bpow_succ in Hle. pose proof (bpow_gt_0 a). lra.
Qed.

Lemma IZR_pow2 (n : Z) : 0 <= n -> IZR (2 ^ n) = bpow n.
Proof.
  intros Hn. pattern n. apply natlike_ind; [reflexivity | | exact Hn].
  intros k Hk IH. unfold Z.succ. rewrite Z.pow_add_r, mult_IZR, IH, bpow_succ by lia.
  change (2 ^ 1) with 2. lra.
Qed.

Lemma digits2_pos_bounds (p : positive) :
  2 ^ (Z.pos (digits2_pos p) - 1) <= Z.pos p < 2 ^ Z.pos (digits2_pos p).
Proof.
  induction p as [p IH|p IH|]; cbn [digits2_pos].
  - rewrite Pos2Z.inj_succ. replace (Z.succ (Z.pos (digits2_pos p)) - 1)
      with (Z.succ (Z.pos (digits2_pos p) - 1)) by lia.
    rewrite !Z.pow_succ_r by lia. lia.
  - rewrite Pos2Z.inj_succ. replace (Z.succ (Z.pos (digits2_pos p)) - 1)
      with (Z.succ (Z.pos (digits2_pos p) - 1)) by lia.
    rewrite !Z.pow_succ_r by lia. lia.
  - simpl. lia.
Qed.

Lemma Zdigits2_bounds (m : Z) :
  0 < m -> 2 ^ (Zdigits2 m - 1) <= m < 2 ^ Zdigits2 m.
Proof.
  destruct m as [|p|p]; try lia. intros _. apply digits2_pos_bounds.
Qed.

Lemma Zdigits2_nonneg (m : Z) : 0 <= Zdigits2 m.
Proof. destruct m; simpl; lia. Qed.

(** The digit count is determined by the binade. *)
Lemma Zdigits2_unique (m d : Z) :
  2 ^ (d - 1) <= m < 2 ^ d -> 0 < m -> Zdigits2 m = d.
Proof.
  intros [Hl Hu] Hm. pose proof (Zdigits2_bounds m Hm) as [Hl' Hu'].
  pose proof (Zdigits2_nonneg m).
  destruct (Z.lt_trichotomy (Zdigits2 m) d) as [Hlt|[Heq|Hgt]]; [|exact Heq|].
  - assert (2 ^ Zdigits2 m <= 2 ^ (d - 1)) by (apply Z.pow_le_mono_r; lia). lia.
  - assert (0 <= d \/ d < 0) as [Hd|Hd] by lia.
    + assert (2 ^ d <= 2 ^ (Zdigits2 m - 1)) by (apply Z.pow_le_mono_r; lia). lia.
    + rewrite (Z.pow_neg_r 2 d) in Hu by lia. lia.
Qed.
Lemma bpow_opp_succ (e : Z) : bpow (- (e + 1)) = (bpow (- e) / 2)%R.
Proof.
  replace (- (e + 1)) with (- e - 1) by lia. apply bpow_pred.
Qed.

Lemma shr_1_represents (mrs : shr_record) (e : Z) (x : R) :
  represents mrs e x -> represents (shr_1 mrs) (e + 1) x.
Proof.
  destruct mrs as [m r s]. unfold represents. cbn [shr_m].
  intros [Hm Hloc]. rewrite bpow_opp_succ.
  set (y := (x * bpow (- e))%R) in *.
  replace (x * (bpow (- e) / 2))%R with (y / 2)%R by (unfold y; lra).
  clearbody y.
  destruct m as [|[p|p|]|p]; try lia; cbn [shr_1 shr_m];
    (split; [lia|]);
    destruct r, s; cbn [loc_of_shr_record located orb] in Hloc |- *;
    try rewrite (Pos2Z.inj_xI p), !plus_IZR, !mult_IZR in Hloc;
    try rewrite (Pos2Z.inj_xO p), !mult_IZR in Hloc;
    lra.
Qed.

Lemma iter_shr_1_represents (p : positive) :
  forall (mrs : shr_record) (e : Z) (x : R),
    represents mrs e x -> represents (SpecFloat.iter_pos shr_1 p mrs) (e + Z.pos p) x.
Proof.
  induction p as [p IH|p IH|]; intros mrs e x H; cbn [SpecFloat.iter_pos].
  - replace (e + Z.pos p~1) with (e + 1 + Z.pos p + Z.pos p) by lia.
    now apply IH, IH, shr_1_represents.
  - replace (e + Z.pos p~0) with (e + Z.pos p + Z.pos p) by lia.
    now apply IH, IH.
  - now apply shr_1_represents.
Qed.

Lemma shr_represents (mrs : shr_record) (e n : Z) (x : R) :
  represents mrs e x ->
  represents (fst (shr mrs e n)) (snd (shr mrs e n)) x
  /\ snd (shr mrs e n) = e + Z.max n 0.
Proof.
  intros H. destruct n as [|p|p]; cbn [shr fst snd].
  - split; [exact H | lia].
  - split; [now apply iter_shr_1_represents | lia].
  - split; [exact H | lia].
Qed.

Lemma loc_of_shr_record_of_loc (m : Z) (l : location) :
  loc_of_shr_record (shr_record_of_loc m l) = l.
Proof. now destruct l as [|[| |]]. Qed.

Lemma shr_m_shr_record_of_loc (m : Z) (l : location) :
  shr_m (shr_record_of_loc m l) = m.
Proof. now destruct l as [|[| |]]. Qed.

Lemma shr_fexp_represents (m e : Z) (l : location) (x : R) :
  0 <= m -> located m (x * bpow (- e)) l ->
  represents (fst (shr_fexp prec emax m e l)) (snd (shr_fexp prec emax m e l)) x
  /\ snd (shr_fexp prec emax m e l) = Z.max e (fexp64 (Zdigits2 m + e)).
Proof.
  intros Hm Hl. unfold shr_fexp.
  assert (Hr : represents (shr_record_of_loc m l) e x).
  { unfold represents.
    now rewrite shr_m_shr_record_of_loc, loc_of_shr_record_of_loc. }
  destruct (shr_represents _ e (fexp prec emax (Zdigits2 m + e) - e) x Hr)
    as [H1 H2].
  split; [exact H1|]. rewrite H2. unfold fexp64. lia.
Qed.

Lemma fexp64_eq (a : Z) : fexp64 a = Z.max (a - prec) femin.
Proof. reflexivity. Qed.

Lemma located_bounds (k : Z) (y : R) (l : location) :
  located k y l -> (IZR k <= y < IZR k + 1)%R.
Proof. destruct l as [|[| |]]; cbn; lra. Qed.

Lemma floor_unique (a b : Z) (y : R) :
  (IZR a <= y < IZR a + 1)%R -> (IZR b <= y < IZR b + 1)%R -> a = b.
Proof.
  intros Ha Hb.
  assert (H1 : (IZR a < IZR (b + 1))%R) by (rewrite plus_IZR; lra).
  assert (H2 : (IZR b < IZR (a + 1))%R) by (rewrite plus_IZR; lra).
  apply lt_IZR in H1, H2. lia.
Qed.

Lemma round_nearest_even_spec (k : Z) (y : R) (l : location) :
  located k y l ->
  (round_nearest_even k l = k \/ round_nearest_even k l = k + 1)
  /\ (IZR (round_nearest_even k l) - / 2 <= y
      <= IZR (round_nearest_even k l) + / 2)%R.
Proof.
  destruct l as [|[| |]]; cbn [located round_nearest_even]; intros H.
  - split; [now left | lra].
  - destruct (Z.even k); (split; [auto|]); rewrite ?plus_IZR; lra.
  - split; [now left | lra].
  - split; [now right|]. rewrite plus_IZR. lra.
Qed.

Lemma IZR_digits (m : Z) :
  0 < m -> (bpow (Zdigits2 m - 1) <= IZR m < bpow (Zdigits2 m))%R.
Proof.
  intros Hm. destruct (Zdigits2_bounds m Hm) as [Hl Hu].
  assert (Hd : 0 < Zdigits2 m) by (destruct m; simpl; lia).
  rewrite <- !IZR_pow2 by lia. split; [apply IZR_le | apply IZR_lt]; assumption.
Qed.

Lemma bpow_scale (x : R) (a b : Z) :
  (x * bpow (- a) * bpow (a - b) = x * bpow (- b))%R.
Proof.
  rewrite Rmult_assoc, <- bpow_plus. f_equal. f_equal. lia.
Qed.

Lemma IZR_lt_pow2 (m n : Z) : 0 <= n -> (IZR m < bpow n)%R -> m < 2 ^ n.
Proof. intros Hn H. rewrite <- IZR_pow2 in H by lia. now apply lt_IZR. Qed.

Lemma IZR_ge_pow2 (m n : Z) : 0 <= n -> (bpow n < IZR m + 1)%R -> 2 ^ n <= m.
Proof.
  intros Hn H. rewrite <- IZR_pow2 in H by lia.
  rewrite <- (plus_IZR m 1) in H. apply lt_IZR in H. lia.
Qed.

Lemma prec_val : prec = 53.
Proof. reflexivity. Qed.

Lemma emax_val : emax = 1024.
Proof. reflexivity. Qed.

Lemma femin_val : femin = -1074.
Proof. reflexivity. Qed.

Lemma IZR_succ_le_pow2 (m d : Z) :
  0 <= d -> m < 2 ^ d -> (IZR m + 1 <= bpow d)%R.
Proof.
  intros Hd H. rewrite <- IZR_pow2 by lia. rewrite <- (plus_IZR m 1).
  apply IZR_le. lia.
Qed.

(** The first shift of [binary_round_aux] brings the mantissa into range. *)
Lemma first_shift (m e : Z) (l : location) (x : R) :
  0 <= m -> located m (x * bpow (- e)) l ->
  e <= fexp64 (Zdigits2 m + e) ->
  represents (fst (shr_fexp prec emax m e l)) (snd (shr_fexp prec emax m e l)) x
  /\ femin <= snd (shr_fexp prec emax m e l)
  /\ shr_m (fst (shr_fexp prec emax m e l)) < 2 ^ prec
  /\ (femin < snd (shr_fexp prec emax m e l) ->
      2 ^ (prec - 1) <= shr_m (fst (shr_fexp prec emax m e l))).
Proof.
  intros Hm Hl Hpre.
  destruct (shr_fexp_represents m e l x Hm Hl) as [Hrep He1].
  set (mrs1 := fst (shr_fexp prec emax m e l)) in *.
  set (e1 := snd (shr_fexp prec emax m e l)) in *.
  assert (He1' : e1 = fexp64 (Zdigits2 m + e)) by lia. clear He1.
  rewrite fexp64_eq in He1', Hpre.
  pose proof Hrep as [Hm1 Hloc1]. apply located_bounds in Hloc1.
  pose proof (located_bounds _ _ _ Hl) as Hb.
  pose proof (bpow_scale x e e1) as Hs.
  pose proof (bpow_gt_0 (e - e1)) as Hpos.
  pose proof prec_val as Hp.
  set (y := (x * bpow (- e))%R) in *. set (y1 := (x * bpow (- e1))%R) in *.
  set (d := Zdigits2 m) in *.
  assert (Hd0 : 0 <= d) by apply Zdigits2_nonneg.
  split; [exact Hrep|]. split; [lia|]. split.
  - apply IZR_lt_pow2; [lia|].
    assert (Hy : (y < bpow d)%R).
    { destruct (Z.eq_dec m 0) as [-> | Hne].
      - change (bpow d) with 1%R. lra.
      - destruct (Zdigits2_bounds m ltac:(lia)) as [_ Hu]. fold d in Hu.
        pose proof (IZR_succ_le_pow2 m d Hd0 Hu). lra. }
    assert (Hle : (bpow d * bpow (e - e1) <= bpow prec)%R).
    { rewrite <- bpow_plus. apply bpow_le. lia. }
    nra.
  - intros Hlt.
    assert (Hmpos : 0 < m).
    { destruct (Z.eq_dec m 0) as [Hz | Hne]; [|lia].
      exfalso. subst m. change d with 0 in *. lia. }
    apply IZR_ge_pow2; [lia|].
    destruct (IZR_digits m Hmpos) as [Hlow _]. fold d in Hlow.
    assert (Heq : (bpow (d - 1) * bpow (e - e1) = bpow (prec - 1))%R).
    { rewrite <- bpow_plus. f_equal. lia. }
    nra.
Qed.

Lemma Zdigits2_le (m n : Z) :
  0 <= m -> 0 <= n -> m < 2 ^ n -> Zdigits2 m <= n.
Proof.
  intros Hm0 Hn Hm. destruct (Z_le_gt_dec m 0) as [Hle | Hgt].
  - assert (m = 0) as -> by lia. exact Hn.
  - destruct (Zdigits2_bounds m ltac:(lia)) as [Hl _].
    destruct (Z_le_gt_dec (Zdigits2 m) n) as [H|H]; [exact H|].
    assert (Hp : 2 ^ n <= 2 ^ (Zdigits2 m - 1)) by (apply Z.pow_le_mono_r; lia).
    lia.
Qed.

Lemma Zdigits2_ge (m n : Z) : 2 ^ (n - 1) <= m -> 0 < m -> n <= Zdigits2 m.
Proof.
  intros Hm Hpos. destruct (Zdigits2_bounds m Hpos) as [_ Hu].
  pose proof (Zdigits2_nonneg m) as Hd.
  destruct (Z_le_gt_dec n (Zdigits2 m)) as [H|H]; [exact H|].
  assert (Hp : 2 ^ Zdigits2 m <= 2 ^ (n - 1)) by (apply Z.pow_le_mono_r; lia).
  lia.
Qed.

Lemma bpow_cancel (e : Z) : (bpow e * bpow (- e) = 1)%R.
Proof. rewrite <- bpow_plus. replace (e + - e) with 0 by lia. apply bpow_0. Qed.

Lemma pow2_prec_split : 2 ^ prec = 2 * 2 ^ (prec - 1).
Proof. reflexivity. Qed.

(** The second shift of [binary_round_aux] renormalises a mantissa that
    rounding has pushed to [2^prec], and leaves any other alone. *)
Lemma second_shift (m2 e1 : Z) :
  0 <= m2 <= 2 ^ prec -> femin <= e1 ->
  (femin < e1 -> 2 ^ (prec - 1) <= m2) ->
  (m2 < 2 ^ prec
   /\ shr_m (fst (shr_fexp prec emax m2 e1 loc_Exact)) = m2
   /\ snd (shr_fexp prec emax m2 e1 loc_Exact) = e1
   /\ (0 < m2 -> fexp64 (Zdigits2 m2 + e1) = e1))
  \/ (m2 = 2 ^ prec
      /\ shr_m (fst (shr_fexp prec emax m2 e1 loc_Exact)) = 2 ^ (prec - 1)
      /\ snd (shr_fexp prec emax m2 e1 loc_Exact) = e1 + 1).
Proof.
  intros [Hm0 Hm2] He1 Hnorm.
  assert (Hl : located m2 (IZR m2 * bpow e1 * bpow (- e1)) loc_Exact).
  { cbn. rewrite Rmult_assoc, bpow_cancel. lra. }
  destruct (shr_fexp_represents m2 e1 loc_Exact _ Hm0 Hl) as [[Hm3 Hloc3] He3].
  set (r := shr_fexp prec emax m2 e1 loc_Exact) in *.
  apply located_bounds in Hloc3. rewrite Rmult_assoc, <- bpow_plus in Hloc3.
  rewrite fexp64_eq in He3. pose proof prec_val as Hp.
  destruct (Z_lt_le_dec m2 (2 ^ prec)) as [Hlt | Hge].
  - left. pose proof (Zdigits2_le m2 prec Hm0 ltac:(lia) Hlt) as Hd.
    assert (He : snd r = e1) by lia.
    rewrite He in Hloc3. replace (e1 + - e1) with 0 in Hloc3 by lia.
    rewrite bpow_0, Rmult_1_r in Hloc3.
    repeat split; try assumption.
    + symmetry. apply (floor_unique _ _ (IZR m2)); [lra | exact Hloc3].
    + intros Hpos. rewrite fexp64_eq.
      destruct (Z_le_gt_dec e1 femin) as [Hsub | Hn]; [lia|].
      pose proof (Zdigits2_ge m2 prec (Hnorm ltac:(lia)) Hpos). lia.
  - right. assert (Heq : m2 = 2 ^ prec) by lia.
    assert (Hd : Zdigits2 m2 = prec + 1).
    { subst m2. reflexivity. }
    assert (He : snd r = e1 + 1) by lia.
    rewrite He in Hloc3. replace (e1 + - (e1 + 1)) with (-1) in Hloc3 by lia.
    rewrite bpow_m1 in Hloc3.
    repeat split; try assumption.
    symmetry. apply (floor_unique _ _ (IZR m2 * / 2)); [|exact Hloc3].
    rewrite Heq, pow2_prec_split, mult_IZR. lra.
Qed.

Lemma bpow_uncancel (x : R) (e : Z) : (x * bpow (- e) * bpow e = x)%R.
Proof.
  rewrite Rmult_assoc, <- bpow_plus. replace (- e + e) with 0 by lia.
  rewrite bpow_0. lra.
Qed.

Lemma IZR_pow2_prec : IZR (2 ^ prec) = (2 * IZR (2 ^ (prec - 1)))%R.
Proof. rewrite pow2_prec_split, mult_IZR. reflexivity. Qed.

Lemma IZR_pow2_prec_ge_1 : (1 <= IZR (2 ^ (prec - 1)))%R.
Proof. apply IZR_le. apply Z.leb_le. reflexivity. Qed.

(** [binary_round_aux] rounds to nearest: given a non-negative real [x]
    located at [m], [l] on the grid of exponent [e], fine enough for the
    format, its result is a float nearest to [x]. *)
Lemma binary_round_aux_rounds_to (m e : Z) (l : location) (x : R) :
  0 <= m -> located m (x * bpow (- e)) l ->
  e <= fexp64 (Zdigits2 m + e) ->
  rounds_to x (binary_round_aux prec emax false m e l).
Proof.
  intros Hm Hl Hpre.
  destruct (first_shift m e l x Hm Hl Hpre) as (Hrep & Hmin & Hlt & Hnorm).
  unfold binary_round_aux.
  destruct (shr_fexp prec emax m e l) as [mrs1 e1]. cbn [fst snd] in *.
  destruct Hrep as [Hm1 Hloc1].
  destruct (round_nearest_even_spec _ _ _ Hloc1) as [Hcase Hnear].
  pose proof (located_bounds _ _ _ Hloc1) as Hb1.
  set (m1 := shr_m mrs1) in *.
  set (m2 := round_nearest_even m1 (loc_of_shr_record mrs1)) in *.
  assert (Hm2 : 0 <= m2 <= 2 ^ prec) by lia.
  assert (Hnorm2 : femin < e1 -> 2 ^ (prec - 1) <= m2).
  { intros H. specialize (Hnorm H). lia. }
  pose proof (bpow_uncancel x e1) as Hx.
  pose proof (bpow_gt_0 e1) as HB.
  set (y1 := (x * bpow (- e1))%R) in *.
  pose proof IZR_pow2_prec as H2p. pose proof IZR_pow2_prec_ge_1 as H1p.
  pose proof prec_val as Hp. pose proof emax_val as Hemax.
  pose proof femin_val as Hfemin.
  assert (Hm12 : (IZR m1 <= IZR m2)%R) by (apply IZR_le; lia).
  destruct (second_shift m2 e1 Hm2 Hmin Hnorm2)
    as [(Hlt2 & Hm3 & He3 & Hcanon) | (Heq2 & Hm3 & He3)];
    destruct (shr_fexp prec emax m2 e1 loc_Exact) as [mrs3 e3];
    cbn [fst snd] in *; rewrite Hm3; subst e3.
  - destruct m2 as [|p|p] eqn:Hp2; [| |lia].
    + (* the result is zero *)
      cbn [rounds_to].
      assert (He : e1 = femin).
      { destruct (Z_le_gt_dec e1 femin) as [H|H]; [lia|].
        specialize (Hnorm ltac:(lia)).
        pose proof (Z.pow_pos_nonneg 2 (prec - 1) ltac:(lia) ltac:(lia)). lia. }
      rewrite <- He. assert (0 <= IZR m1)%R by (apply IZR_le; lia). nra.
    + destruct (e1 <=? emax - prec) eqn:Hov.
      * (* a finite result *)
        apply Z.leb_le in Hov. cbn [rounds_to]. split.
        -- unfold SpecFloat.bounded, canonical_mantissa.
           apply andb_true_intro. split; [|now apply Z.leb_le].
           apply Z.eqb_eq. apply (Hcanon ltac:(lia)).
        -- unfold F2R, low_gap.
           destruct ((Z.pos p =? 2 ^ (prec - 1)) && (femin <? e1)) eqn:Hg.
           ++ apply andb_prop in Hg as [Hg1 Hg2].
              apply Z.eqb_eq in Hg1. apply Z.ltb_lt in Hg2.
              specialize (Hnorm Hg2).
              assert (Hm1eq : m1 = Z.pos p) by lia. rewrite Hm1eq in Hb1. nra.
           ++ nra.
      * (* overflow *)
        apply Z.leb_gt in Hov. cbn [rounds_to].
        specialize (Hnorm ltac:(lia)).
        assert (Hm1r : (IZR (2 ^ (prec - 1)) <= IZR m1)%R) by now apply IZR_le.
        assert (HB2 : (2 * bpow (emax - prec) <= bpow e1)%R).
        { rewrite <- bpow_succ. apply bpow_le. lia. }
        pose proof (bpow_gt_0 (emax - prec)). nra.
  - (* rounding reached the next binade *)
    assert (Hpos : 0 < 2 ^ (prec - 1)) by (apply Z.pow_pos_nonneg; lia).
    destruct (2 ^ (prec - 1)) as [|q|q] eqn:Hq; [lia| |lia].
    rewrite Heq2 in Hnear. rewrite H2p in Hnear.
    destruct (e1 + 1 <=? emax - prec) eqn:Hov.
    + apply Z.leb_le in Hov. cbn [rounds_to]. split.
      * unfold SpecFloat.bounded, canonical_mantissa.
        apply andb_true_intro. split; [|now apply Z.leb_le].
        apply Z.eqb_eq.
        change (Z.pos (digits2_pos q)) with (Zdigits2 (Z.pos q)).
        rewrite (Zdigits2_unique (Z.pos q) prec);
          [|rewrite <- Hq, pow2_prec_split; lia|lia].
        change (fexp prec emax (prec + (e1 + 1))) with (fexp64 (prec + (e1 + 1))).
        rewrite fexp64_eq. lia.
      * unfold F2R, low_gap. rewrite Hq, Z.eqb_refl.
        assert (Hg : (femin <? e1 + 1) = true) by (apply Z.ltb_lt; lia).
        rewrite Hg. cbn [andb]. rewrite !bpow_succ. nra.
    + apply Z.leb_gt in Hov. cbn [rounds_to].
      assert (HB2 : (bpow (emax - prec) <= bpow e1)%R) by (apply bpow_le; lia).
      pose proof (bpow_gt_0 (emax - prec)). nra.
Qed.

Lemma new_location_located (q r d : Z) :
  0 < d -> 0 <= r < d ->
  located q (IZR q + IZR r / IZR d) (new_location d r).
Proof.
  intros Hd Hr.
  assert (HdR : (0 < IZR d)%R) by (apply (IZR_lt 0); lia).
  assert (Hhalf : forall c, Z.compare (2 * r) d = c -> r <> 0 ->
            located q (IZR q + IZR r / IZR d) (loc_Inexact c)).
  { intros c Hc Hr0.
    assert (HrR : (0 < IZR r)%R) by (apply (IZR_lt 0); lia).
    assert (Hlt : (IZR r < IZR d)%R) by (apply IZR_lt; lia).
    assert (Hq : (0 < IZR r / IZR d < 1)%R).
    { split; [apply Rdiv_lt_0_compat; assumption|].
      apply (Rmult_lt_reg_r (IZR d)); [assumption|].
      unfold Rdiv. rewrite Rmult_assoc, Rinv_l by lra. lra. }
    assert (Hmul : (IZR r / IZR d * IZR d = IZR r)%R).
    { unfold Rdiv. rewrite Rmult_assoc, Rinv_l by lra. lra. }
    destruct c; cbn [located].
    - apply Z.compare_eq_iff in Hc.
      assert (H2 : (2 * IZR r = IZR d)%R) by (rewrite <- mult_IZR; now f_equal).
      nra.
    - apply Z.compare_lt_iff in Hc.
      assert (H2 : (2 * IZR r < IZR d)%R) by (rewrite <- mult_IZR; now apply IZR_lt).
      nra.
    - apply Z.compare_gt_iff in Hc.
      assert (H2 : (IZR d < 2 * IZR r)%R) by (rewrite <- mult_IZR; now apply IZR_lt).
      nra. }
  unfold new_location, new_location_even, new_location_odd.
  destruct (Z.even d) eqn:Hev.
  - destruct (Z.eqb_spec r 0) as [-> | Hr0].
    + cbn [located]. unfold Rdiv. lra.
    + now apply Hhalf.
  - destruct (Z.eqb_spec r 0) as [-> | Hr0].
    + cbn [located]. unfold Rdiv. lra.
    + apply Hhalf; [|exact Hr0].
      assert (Hodd : 2 * r <> d).
      { intros <-. rewrite Z.even_mul in Hev. discriminate Hev. }
      destruct (Z.compare_spec (2 * r + 1) d) as [H|H|H];
        destruct (Z.compare_spec (2 * r) d) as [H'|H'|H']; try reflexivity; lia.
Qed.

Lemma fexp64_mono (a b : Z) : a <= b -> fexp64 a <= fexp64 b.
Proof. rewrite !fexp64_eq. lia. Qed.

Lemma F2R_pos (m : positive) (e : Z) : (0 < F2R (Z.pos m) e)%R.
Proof.
  unfold F2R. apply Rmult_lt_0_compat; [apply (IZR_lt 0); lia | apply bpow_gt_0].
Qed.

(** The quotient computed by [SFdiv_core_binary] locates the exact quotient
    on a grid that is fine enough for the format. *)
Lemma SFdiv_core_binary_located (mx my : positive) (ex ey : Z) :
  let r := SFdiv_core_binary prec emax (Z.pos mx) ex (Z.pos my) ey in
  0 <= r.1.1
  /\ located r.1.1 (F2R (Z.pos mx) ex / F2R (Z.pos my) ey * bpow (- r.1.2)) r.2
  /\ r.1.2 <= fexp64 (Zdigits2 r.1.1 + r.1.2).
Proof.
  unfold SFdiv_core_binary.
  set (d1 := Zdigits2 (Z.pos mx)). set (d2 := Zdigits2 (Z.pos my)).
  set (e' := Z.min (fexp prec emax (d1 + ex - (d2 + ey))) (ex - ey)).
  set (s := ex - ey - e').
  assert (Hs : 0 <= s) by (unfold s, e'; lia).
  set (m' := match s with Z.pos _ => Z.shiftl (Z.pos mx) s | 0 => Z.pos mx | Z.neg _ => 0 end).
  assert (Hm' : m' = Z.pos mx * 2 ^ s).
  { unfold m'. destruct s as [|p|p]; [rewrite Z.pow_0_r; lia | | lia].
    apply Z.shiftl_mul_pow2. lia. }
  assert (Hpow : 0 < 2 ^ s) by (apply Z.pow_pos_nonneg; lia).
  assert (Hm'pos : 0 < m') by (rewrite Hm'; lia).
  pose proof (Z_div_mod m' (Z.pos my) ltac:(lia)) as Hdm.
  destruct (Z.div_eucl m' (Z.pos my)) as [q r]. destruct Hdm as [Hdm Hr].
  cbn [fst snd].
  assert (Hq : 0 <= q) by nia.
  split; [exact Hq|]. split.
  - assert (Hval : (F2R (Z.pos mx) ex / F2R (Z.pos my) ey * bpow (- e')
                    = IZR q + IZR r / IZR (Z.pos my))%R).
    { unfold F2R.
      assert (Hmy : (0 < IZR (Z.pos my))%R) by (apply (IZR_lt 0); lia).
      pose proof (bpow_gt_0 ey) as Hey.
      assert (Hex : (bpow ex = bpow s * bpow ey * bpow e')%R).
      { rewrite <- !bpow_plus. f_equal. unfold s. lia. }
      assert (HmR : (IZR m' = IZR (Z.pos mx) * bpow s)%R).
      { rewrite Hm', mult_IZR, IZR_pow2 by lia. reflexivity. }
      assert (HdR : (IZR m' = IZR (Z.pos my) * IZR q + IZR r)%R).
      { rewrite <- mult_IZR, <- plus_IZR. now f_equal. }
      rewrite Hex, bpow_opp. pose proof (bpow_gt_0 e') as He'.
      field_simplify; try lra. rewrite <- HdR, HmR. field. lra. }
    rewrite Hval. now apply new_location_located.
  - apply Z.le_trans with (fexp64 (d1 + ex - (d2 + ey))); [unfold e', fexp64; lia|].
    apply fexp64_mono.
    destruct (Z_le_gt_dec (d1 - d2 + s) 0) as [Hsmall | Hbig].
    + pose proof (Zdigits2_nonneg q). unfold s in *. lia.
    + assert (Hqd : d1 - d2 + s <= Zdigits2 q).
      { assert (Hd2 : 0 < d2) by (unfold d2; simpl; lia).
        assert (Hd1 : 0 < d1) by (unfold d1; simpl; lia).
        destruct (Zdigits2_bounds (Z.pos mx) ltac:(lia)) as [Hl1 _].
        destruct (Zdigits2_bounds (Z.pos my) ltac:(lia)) as [_ Hu2].
        fold d1 in Hl1. fold d2 in Hu2.
        assert (Hlow : 2 ^ (d1 - d2 + s - 1) <= q).
        { assert (Hprod : 2 ^ d2 * 2 ^ (d1 - d2 + s - 1) <= m').
          { rewrite Hm', <- Z.pow_add_r by lia.
            replace (d2 + (d1 - d2 + s - 1)) with ((d1 - 1) + s) by lia.
            rewrite Z.pow_add_r by lia.
            apply Z.mul_le_mono_nonneg_r; lia. }
          pose proof (Z.pow_pos_nonneg 2 (d1 - d2 + s - 1) ltac:(lia) ltac:(lia)).
          nia. }
        assert (Hqpos : 0 < q).
        { pose proof (Z.pow_pos_nonneg 2 (d1 - d2 + s - 1) ltac:(lia) ltac:(lia)). lia. }
        now apply Zdigits2_ge. }
      unfold s in *. lia.
Qed.

(** Division of positive finite floats rounds the exact quotient to
    nearest. *)
Lemma fdiv_rounds_to (mx my : positive) (ex ey : Z) :
  rounds_to (F2R (Z.pos mx) ex / F2R (Z.pos my) ey)
    (fdiv (S754_finite false mx ex) (S754_finite false my ey)).
Proof.
  unfold fdiv, SFdiv.
  destruct (SFdiv_core_binary_located mx my ex ey) as (Hq & Hloc & Hpre).
  destruct (SFdiv_core_binary prec emax (Z.pos mx) ex (Z.pos my) ey)
    as [[mz ez] lz].
  cbn [fst snd xorb] in *. now apply binary_round_aux_rounds_to.
Qed.

Lemma bounded_canonical (m : positive) (e : Z) :
  SpecFloat.bounded prec emax m e = true ->
  femin <= e <= emax - prec
  /\ Z.pos m < 2 ^ prec
  /\ (femin < e -> 2 ^ (prec - 1) <= Z.pos m).
Proof.
  unfold SpecFloat.bounded, canonical_mantissa. intros H.
  apply andb_prop in H as [Hc He]. apply Z.eqb_eq in Hc. apply Z.leb_le in He.
  change (fexp prec emax (Z.pos (digits2_pos m) + e))
    with (fexp64 (Zdigits2 (Z.pos m) + e)) in Hc.
  rewrite fexp64_eq in Hc.
  destruct (Zdigits2_bounds (Z.pos m) ltac:(lia)) as [Hl Hu].
  pose proof prec_val as Hp.
  assert (Hd : 0 < Zdigits2 (Z.pos m)) by (simpl; lia).
  split; [lia|]. split.
  - apply Z.lt_le_trans with (2 ^ Zdigits2 (Z.pos m)); [exact Hu|].
    apply Z.pow_le_mono_r; lia.
  - intros Hn. replace (prec - 1) with (Zdigits2 (Z.pos m) - 1) by lia. exact Hl.
Qed.

Lemma bounded_canonical_R (m : positive) (e : Z) :
  SpecFloat.bounded prec emax m e = true ->
  femin <= e <= emax - prec
  /\ (1 <= IZR (Z.pos m))%R
  /\ (IZR (Z.pos m) + 1 <= 2 * IZR (2 ^ (prec - 1)))%R
  /\ (femin < e -> (IZR (2 ^ (prec - 1)) <= IZR (Z.pos m))%R).
Proof.
  intros H. destruct (bounded_canonical m e H) as (He & Hlt & Hn).
  split; [exact He|]. split; [apply IZR_le; lia|]. split.
  - rewrite <- IZR_pow2_prec, <- (plus_IZR _ 1). apply IZR_le. lia.
  - intros Hf. apply IZR_le. now apply Hn.
Qed.

Lemma low_gap_le (m : positive) (e : Z) : (low_gap m e <= bpow e / 2)%R.
Proof.
  unfold low_gap. pose proof (bpow_gt_0 e).
  destruct ((Z.pos m =? 2 ^ (prec - 1)) && (femin <? e)); lra.
Qed.

Lemma low_gap_power (m : positive) (e : Z) :
  Z.pos m = 2 ^ (prec - 1) -> femin < e -> low_gap m e = (bpow e / 4)%R.
Proof.
  intros Hm He. unfold low_gap.
  rewrite (proj2 (Z.eqb_eq _ _) Hm), (proj2 (Z.ltb_lt _ _) He). reflexivity.
Qed.

(** Rounding to nearest is monotone. *)
Lemma rounds_to_mono (x1 x2 : R) (g1 g2 : float) :
  (x1 < x2)%R -> rounds_to x1 g1 -> rounds_to x2 g2 -> fle g1 g2 = true.
Proof.
  intros Hx H1 H2.
  pose proof IZR_pow2_prec as H2p. pose proof IZR_pow2_prec_ge_1 as H1p.
  pose proof (bpow_gt_0 femin) as Hbmin.
  pose proof (bpow_gt_0 (emax - prec)) as Hbmax.
  assert (Hminmax : (bpow femin <= bpow (emax - prec))%R).
  { apply bpow_le. rewrite femin_val, emax_val, prec_val. lia. }
  set (P := IZR (2 ^ (prec - 1))) in *.
  destruct g1 as [s1|s1| |s1 m1 e1], g2 as [s2|s2| |s2 m2 e2];
    try destruct s1; try destruct s2; cbn [rounds_to] in H1, H2;
    try contradiction; try reflexivity.
  - (* infinity against zero *)
    exfalso. rewrite H2p in H1. nra.
  - (* infinity against a finite number *)
    exfalso. destruct H2 as [Hb2 [_ Hu2]].
    destruct (bounded_canonical_R m2 e2 Hb2) as (He2 & Hone2 & Hlt2 & _).
    fold P in Hlt2. unfold F2R in Hu2. rewrite H2p in H1.
    pose proof (bpow_gt_0 e2) as HB2.
    assert (Hle : (bpow e2 <= bpow (emax - prec))%R) by (apply bpow_le; lia).
    nra.
  - (* a finite number against zero *)
    exfalso. destruct H1 as [Hb1 [Hl1 _]].
    destruct (bounded_canonical_R m1 e1 Hb1) as (He1 & Hone1 & _ & _).
    pose proof (low_gap_le m1 e1) as Hg. unfold F2R in Hl1.
    pose proof (bpow_gt_0 e1) as HB1.
    assert (Hle : (bpow femin <= bpow e1)%R) by (apply bpow_le; lia).
    nra.
  - (* two finite numbers *)
    destruct H1 as [Hb1 [Hl1 _]]. destruct H2 as [Hb2 [_ Hu2]].
    destruct (bounded_canonical_R m1 e1 Hb1) as (He1 & Hone1 & Hlt1 & Hn1).
    destruct (bounded_canonical_R m2 e2 Hb2) as (He2 & Hone2 & Hlt2 & Hn2).
    fold P in Hlt1, Hlt2, Hn1, Hn2. unfold F2R in Hl1, Hu2.
    pose proof (bpow_gt_0 e1) as HB1. pose proof (bpow_gt_0 e2) as HB2.
    pose proof (low_gap_le m1 e1) as Hg.
    apply fle_key. eexists _, _. split; [reflexivity|]. split; [reflexivity|].
    unfold key_le. cbn [fst snd].
    destruct (Z_lt_le_dec e1 e2) as [Hlt | Hge]; [lia|].
    right. split; [reflexivity|].
    destruct (Z.eq_dec e1 e2) as [Heq | Hne].
    + right. split; [exact Heq|]. subst e2.
      destruct (Z_le_gt_dec (Z.pos m1) (Z.pos m2)) as [Hle | Hgt]; [exact Hle|].
      exfalso.
      assert (Hm : (IZR (Z.pos m2) + 1 <= IZR (Z.pos m1))%R).
      { rewrite <- (plus_IZR _ 1). apply IZR_le. lia. }
      nra.
    + exfalso.
      assert (HB : (2 * bpow e2 <= bpow e1)%R).
      { rewrite <- bpow_succ. apply bpow_le. lia. }
      specialize (Hn1 ltac:(lia)).
      destruct (Z.eq_dec (Z.pos m1) (2 ^ (prec - 1))) as [Hpow | Hnp].
      * rewrite (low_gap_power m1 e1 Hpow ltac:(lia)) in Hl1.
        rewrite Hpow in Hl1. fold P in Hl1. nra.
      * assert (Hm : (P + 1 <= IZR (Z.pos m1))%R).
        { unfold P. rewrite <- (plus_IZR _ 1). apply IZR_le.
          apply le_IZR in Hn1. lia. }
        nra.
Qed.

Lemma rounds_to_not_nan (x : R) (g : float) : rounds_to x g -> is_nan g = false.
Proof. destruct g as [[]|[]| |[] m e]; cbn; tauto. Qed.

Lemma rounds_to_valid (x : R) (g : float) : rounds_to x g -> valid g = true.
Proof. destruct g as [[]|[]| |[] m e]; cbn; tauto. Qed.

Lemma rounds_to_nonneg (x : R) (g : float) : rounds_to x g -> fle fzero g = true.
Proof. destruct g as [[]|[]| |[] m e]; cbn; tauto. Qed.

Lemma fle_refl (x : float) : is_nan x = false -> fle x x = true.
Proof. intros H. now destruct (fle_total x x H H). Qed.

(** On well-formed positive floats the comparison is the order of the
    values. *)
Lemma fle_finite_value (m1 m2 : positive) (e1 e2 : Z) :
  SpecFloat.bounded prec emax m1 e1 = true ->
  SpecFloat.bounded prec emax m2 e2 = true ->
  fle (S754_finite false m1 e1) (S754_finite false m2 e2) = true ->
  (m1 = m2 /\ e1 = e2) \/ (F2R (Z.pos m1) e1 < F2R (Z.pos m2) e2)%R.
Proof.
  intros Hb1 Hb2 Hle.
  apply fle_key in Hle as (a & b & [= <-] & [= <-] & Hk).
  unfold key_le in Hk. cbn [fst snd] in Hk.
  destruct (bounded_canonical_R m1 e1 Hb1) as (He1 & Hone1 & Hlt1 & _).
  destruct (bounded_canonical_R m2 e2 Hb2) as (He2 & Hone2 & _ & Hn2).
  pose proof IZR_pow2_prec_ge_1 as H1p.
  pose proof (bpow_gt_0 e1) as HB1. pose proof (bpow_gt_0 e2) as HB2.
  unfold F2R.
  destruct Hk as [Hk | [_ [Hk | [He Hm]]]]; [lia | |].
  - right. specialize (Hn2 ltac:(lia)).
    assert (HB : (2 * bpow e1 <= bpow e2)%R).
    { rewrite <- bpow_succ. apply bpow_le. lia. }
    nra.
  - subst e2. destruct (Z.eq_dec (Z.pos m1) (Z.pos m2)) as [Heq | Hne].
    + left. split; [congruence | reflexivity].
    + right. assert (Hlt : (IZR (Z.pos m1) < IZR (Z.pos m2))%R) by (apply IZR_lt; lia).
      nra.
Qed.

(** Division by a positive finite float is monotone in a well-formed
    non-negative numerator. *)
Lemma fdiv_mono_finite (m1 m2 ms : positive) (e1 e2 es : Z) :
  SpecFloat.bounded prec emax m1 e1 = true ->
  SpecFloat.bounded prec emax m2 e2 = true ->
  fle (S754_finite false m1 e1) (S754_finite false m2 e2) = true ->
  fle (fdiv (S754_finite false m1 e1) (S754_finite false ms es))
      (fdiv (S754_finite false m2 e2) (S754_finite false ms es)) = true.
Proof.
  intros Hb1 Hb2 Hle.
  pose proof (fdiv_rounds_to m1 ms e1 es) as Hr1.
  pose proof (fdiv_rounds_to m2 ms e2 es) as Hr2.
  destruct (fle_finite_value m1 m2 e1 e2 Hb1 Hb2 Hle) as [[-> ->] | Hlt].
  - apply fle_refl. now apply (rounds_to_not_nan _ _ Hr1).
  - apply (rounds_to_mono (F2R (Z.pos m1) e1 / F2R (Z.pos ms) es)%R
             (F2R (Z.pos m2) e2 / F2R (Z.pos ms) es)%R);
      [|exact Hr1|exact Hr2].
    pose proof (F2R_pos ms es) as Hs.
    unfold Rdiv. apply Rmult_lt_compat_r; [now apply Rinv_0_lt_compat | exact Hlt].
Qed.

Lemma binary_round_aux_sign (s : bool) (m e : Z) (l : location) :
  binary_round_aux prec emax s m e l
  = if s then SFopp (binary_round_aux prec emax false m e l)
    else binary_round_aux prec emax false m e l.
Proof.
  destruct s; [|reflexivity]. unfold binary_round_aux.
  destruct (shr_fexp prec emax m e l) as [mrs e'].
  destruct (shr_fexp prec emax _ e' loc_Exact) as [mrs' e''].
  destruct (shr_m mrs'); try reflexivity.
  now destruct (e'' <=? emax - prec).
Qed.

Lemma valid_SFopp (x : float) : valid (SFopp x) = valid x.
Proof. now destruct x. Qed.

Lemma iter_xO_pow2 (d m : positive) :
  Z.pos (Pos.iter xO m d) = Z.pos m * 2 ^ Z.pos d.
Proof.
  induction d as [|d IH] using Pos.peano_ind.
  - cbn. lia.
  - rewrite Pos.iter_succ, Pos2Z.inj_xO, IH, Pos2Z.inj_succ, Z.pow_succ_r by lia.
    lia.
Qed.

Lemma binary_round_valid (s : bool) (m : positive) (e : Z) :
  valid (binary_round prec emax s m e) = true.
Proof.
  unfold binary_round.
  set (e' := fexp prec emax (Z.pos (digits2_pos m) + e)).
  assert (He' : e' = fexp64 (Zdigits2 (Z.pos m) + e)) by reflexivity.
  assert (Hal : exists mz ez,
            shl_align m e e' = (mz, ez)
            /\ (IZR (Z.pos mz) * bpow ez = IZR (Z.pos m) * bpow e)%R
            /\ ez <= fexp64 (Zdigits2 (Z.pos mz) + ez)).
  { unfold shl_align. destruct (e' - e) as [|d|d] eqn:Hd.
    - exists m, e. repeat split. lia.
    - exists m, e. repeat split. lia.
    - exists (Pos.iter xO m d), e'. split; [reflexivity|].
      assert (Hmz := iter_xO_pow2 d m).
      assert (Hdig : Zdigits2 (Z.pos (Pos.iter xO m d)) = Zdigits2 (Z.pos m) + Z.pos d).
      { apply Zdigits2_unique; [|lia].
        destruct (Zdigits2_bounds (Z.pos m) ltac:(lia)) as [Hl Hu].
        assert (0 < Zdigits2 (Z.pos m)) by (simpl; lia).
        rewrite Hmz.
        replace (Zdigits2 (Z.pos m) + Z.pos d - 1)
          with ((Zdigits2 (Z.pos m) - 1) + Z.pos d) by lia.
        rewrite !Z.pow_add_r by lia.
        pose proof (Z.pow_pos_nonneg 2 (Z.pos d) ltac:(lia) ltac:(lia)). nia. }
      split.
      + rewrite Hmz, mult_IZR, IZR_pow2 by lia.
        rewrite Rmult_assoc, <- bpow_plus. do 2 f_equal. lia.
      + rewrite Hdig. replace (Zdigits2 (Z.pos m) + Z.pos d + e')
          with (Zdigits2 (Z.pos m) + e) by lia. lia. }
  destruct Hal as (mz & ez & -> & Hval & Hpre).
  rewrite binary_round_aux_sign.
  assert (Hr : rounds_to (IZR (Z.pos m) * bpow e)
                 (binary_round_aux prec emax false (Z.pos mz) ez loc_Exact)).
  { apply binary_round_aux_rounds_to; [lia | | exact Hpre].
    cbn [located]. rewrite <- Hval, Rmult_assoc, bpow_cancel. lra. }
  destruct s; rewrite ?valid_SFopp; exact (rounds_to_valid _ _ Hr).
Qed.

(** Subtraction of well-formed floats is well-formed. *)
Lemma fsub_valid (x y : float) :
  valid x = true -> valid y = true -> valid (fsub x y) = true.
Proof.
  intros Hx Hy. unfold fsub, SFsub.
  destruct x as [sx|sx| |sx mx ex], y as [sy|sy| |sy my ey];
    try destruct sx; try destruct sy; try reflexivity; try assumption;
    unfold binary_normalize;
    match goal with
    | |- context [match ?z with 0 => _ | Z.pos _ => _ | Z.neg _ => _ end] =>
        destruct z; try reflexivity; apply binary_round_valid
    end.
Qed.

Lemma fle_infinity (x : float) :
  is_nan x = false -> fle x (S754_infinity false) = true.
Proof. destruct x as [s|s| |s m e]; try destruct s; try reflexivity; discriminate. Qed.

(** Dividing two absolute values by the same positive float keeps their
    order, unless the larger quotient is undefined. *)
Lemma fdiv_fabs_mono (d1 d2 s : float) :
  valid d1 = true -> valid d2 = true -> fgt s fzero = true ->
  fle (fabs d1) (fabs d2) = true ->
  fle (fdiv (fabs d1) s) (fdiv (fabs d2) s) = true
  \/ is_nan (fdiv (fabs d2) s) = true.
Proof.
  intros Hv1 Hv2 Hs Hle.
  destruct s as [ss|ss| |ss ms es]; try discriminate Hs;
    destruct ss; try discriminate Hs;
    destruct d1 as [s1|s1| |s1 m1 e1], d2 as [s2|s2| |s2 m2 e2];
    cbn [fabs SFabs] in Hle |- *; try discriminate Hle;
    try (left; reflexivity); try (right; reflexivity).
  - (* 0 / s <= m2 / s *)
    left. change (fdiv (S754_zero false) (S754_finite false ms es)) with fzero.
    exact (rounds_to_nonneg _ _ (fdiv_rounds_to m2 ms e2 es)).
  - (* m1 / s <= inf *)
    left. change (fdiv (S754_infinity false) (S754_finite false ms es))
      with (S754_infinity false).
    apply fle_infinity.
    exact (rounds_to_not_nan _ _ (fdiv_rounds_to m1 ms e1 es)).
  - left. now apply fdiv_mono_finite.
Qed.

Lemma point_score_lowest (z : float) : fle f0_3 (point_score z) = true.
Proof.
  destruct (point_score_values z) as [-> | [-> | [-> | ->]]]; reflexivity.
Qed.

Lemma point_score_nan (z : float) : is_nan z = true -> point_score z = f0_3.
Proof. destruct z; try discriminate. reflexivity. Qed.

(** X29. A value whose distance from the mean (as computed in binary64)
    is not larger never gets a smaller score for that feature. *)
Theorem X29_closer_to_mean_scores_no_lower (mean std v1 v2 : float) :
  valid mean = true -> valid v1 = true -> valid v2 = true ->
  fgt std fzero = true ->
  fle (fabs (fsub v1 mean)) (fabs (fsub v2 mean)) = true ->
  fle (point_score (z_score v2 mean std)) (point_score (z_score v1 mean std))
  = true.
Proof.
  intros Hm Hv1 Hv2 Hs Hle. unfold z_score. rewrite Hs.
  rewrite !(fabs_fdiv _ std Hs).
  pose proof (fsub_valid v1 mean Hv1 Hm) as Hd1.
  pose proof (fsub_valid v2 mean Hv2 Hm) as Hd2.
  set (z1 := fdiv (fabs (fsub v1 mean)) std).
  set (z2 := fdiv (fabs (fsub v2 mean)) std).
  destruct (fdiv_fabs_mono _ _ std Hd1 Hd2 Hs Hle) as [Hz | Hnan];
    fold z1 z2 in Hz || fold z2 in Hnan.
  - unfold point_score.
    destruct (fle z2 f1) eqn:H1.
    + now rewrite (fle_trans _ _ _ Hz H1).
    + destruct (fle z2 f2) eqn:H2.
      * rewrite (fle_trans _ _ _ Hz H2). now destruct (fle z1 f1).
      * destruct (fle z2 f3) eqn:H3.
        -- rewrite (fle_trans _ _ _ Hz H3).
           destruct (fle z1 f1); [reflexivity|]. now destruct (fle z1 f2).
        -- destruct (fle z1 f1); [reflexivity|].
           destruct (fle z1 f2); [reflexivity|]. now destruct (fle z1 f3).
  - rewrite (point_score_nan z2 Hnan). apply point_score_lowest.
Qed.

Lemma X29_closer_to_mean_scores_no_lower_witness :
  fle (point_score (z_score (float_of_Z 3600) (float_of_Z 2000) (float_of_Z 500)))
      (point_score (z_score (float_of_Z 2100) (float_of_Z 2000) (float_of_Z 500)))
  = true.
Proof.
  apply (X29_closer_to_mean_scores_no_lower (float_of_Z 2000) (float_of_Z 500)
           (float_of_Z 2100) (float_of_Z 3600));
    vm_compute; reflexivity.
Defined.

(** A finite float minus itself is zero. *)
Lemma fabs_fsub_diag (v : float) :
  is_finite v = true -> fabs (fsub v v) = fzero.
Proof.
  intros Hv. destruct v as [s|s| |s m e]; try discriminate Hv.
  - now destruct s.
  - unfold fsub, SFsub. rewrite Z.sub_diag. reflexivity.
Qed.

(** X30. A finite value that equals the mean of its feature gets the top
    score 0.9, whatever the recorded standard deviation is. *)
Theorem X30_value_at_mean_scores_top (v std : float) :
  is_finite v = true -> point_score (z_score v v std) = f0_9.
Proof.
  intros Hv. unfold z_score. destruct (fgt std fzero) eqn:Hs; [|reflexivity].
  rewrite (fabs_fdiv _ std Hs), (fabs_fsub_diag v Hv).
  destruct std as [ss|ss| |ss ms es]; try discriminate Hs;
    destruct ss; try discriminate Hs; reflexivity.
Qed.

Lemma X30_value_at_mean_scores_top_witness :
  point_score (z_score (float_of_Z 2000) (float_of_Z 2000) (float_of_Z 500))
  = f0_9.
Proof.
  apply (X30_value_at_mean_scores_top (float_of_Z 2000) (float_of_Z 500)).
  reflexivity.
Defined.
